(** * The [azc-auth] login/logout component (packages/ai-chat-components,
      src/components/auth.ts)

    A shallow embedding of the [AuthComponent] custom element and of the
    part of the JavaScript platform it calls, followed by the properties of
    the component that the design notes of the repository state.

    Layout:
    - [JS]: strings, values, completions and the built-ins the component
      calls ([ToString], [ToBoolean], property reads, object spread,
      [encodeURIComponent], [JSON.parse]);
    - [Lit]: the shape of the templates the [html] tag builds;
    - [Auth]: the component itself, one definition per member of the class,
      and the life cycle of one instance;
    - the properties. *)

From Stdlib Require Import NArith String Ascii List DecimalString.
From stdpp Require Import base option list countable gmap.

Local Open Scope N_scope.

(** ** The JavaScript platform *)

Module JS.

(** A JavaScript string is a sequence of UTF-16 code units. *)
Abbreviation jsstring := (list N).

(** An ASCII literal of the source as a JavaScript string. *)
Definition lit (s : string) : jsstring := N_of_ascii <$> list_ascii_of_string s.

(** The errors the built-ins used here can throw. *)
Inductive exn := TypeError | URIError | SyntaxError.

(** A completion: a returned value or a thrown error. *)
Inductive completion (A : Type) :=
| Ok (a : A)
| Throw (e : exn).
Arguments Ok {A} a.
Arguments Throw {A} e.

Definition cbind {A B} (c : completion A) (k : A -> completion B) : completion B :=
  match c with
  | Ok a => k a
  | Throw e => Throw e
  end.

Definition cmap {A B} (f : A -> B) (c : completion A) : completion B :=
  cbind c (fun a => Ok (f a)).

(** The values the component handles: what [JSON.parse] and
    [Response.json] produce, and [undefined].  A Number is represented by
    the text [Number::toString] gives for it (["1"], ["0.5"], ["1e+21"],
    ["NaN"]; both zeros print as ["0"]): the component observes a number
    only through [ToString] and [ToBoolean], which are functions of that
    text.  An object is its finite map of own enumerable data properties;
    no property of these values is a function. *)
#[warnings="-register-all"]
Inductive value :=
| VUndefined
| VNull
| VBool (b : bool)
| VNumber (text : jsstring)
| VString (s : jsstring)
| VArray (elements : list value)
| VObject (properties : gmap jsstring value).

(** The string of a value, or [None] where the conversion throws its
    [TypeError].  An object prints as ["[object Object]"] through the
    [toString] it inherits, unless it has an own property [toString]: that
    one, which in these values is never a function, shadows the inherited
    method, [valueOf] gives back the object, and no primitive is found.
    An array is joined with [","], its [undefined] and [null] elements
    printing as the empty string and its other elements converted in turn
    (none of its own properties shadows [toString] or [join]). *)
Fixpoint to_string (v : value) : option jsstring :=
  match v with
  | VUndefined => Some (lit "undefined")
  | VNull => Some (lit "null")
  | VBool true => Some (lit "true")
  | VBool false => Some (lit "false")
  | VNumber text => Some text
  | VString s => Some s
  | VArray elements =>
      (fix join (l : list value) : option jsstring :=
         match l with
         | [] => Some []
         | x :: rest =>
             match match x with
                   | VUndefined | VNull => Some []
                   | _ => to_string x
                   end with
             | None => None
             | Some first =>
                 match rest with
                 | [] => Some first
                 | _ :: _ =>
                     match join rest with
                     | None => None
                     | Some others => Some (first ++ lit "," ++ others)
                     end
                 end
             end
         end) elements
  | VObject properties =>
      match properties !! lit "toString" with
      | Some _ => None
      | None => Some (lit "[object Object]")
      end
  end.

(** [ToString]. *)
Definition ToString (v : value) : completion jsstring :=
  match to_string v with
  | Some s => Ok s
  | None => Throw TypeError
  end.

(** [ToBoolean]: [undefined], [null], [false], the zeros,
    [NaN] and the empty string are falsy, everything else is truthy. *)
Definition ToBoolean (v : value) : bool :=
  match v with
  | VUndefined | VNull => false
  | VBool b => b
  | VNumber text => negb (bool_decide (text = lit "0") || bool_decide (text = lit "NaN"))
  | VString s => negb (bool_decide (s = []))
  | VArray _ | VObject _ => true
  end.

(** [v === s] for a string literal [s]. *)
Definition strict_eq_string (v : value) (s : jsstring) : bool :=
  match v with
  | VString s' => bool_decide (s' = s)
  | _ => false
  end.

(** The canonical numeric string of an array index. *)
Definition index_key (i : nat) : jsstring :=
  lit (NilZero.string_of_uint (Nat.to_uint i)).

(** The own enumerable properties of [ToObject v]: the properties of an
    object, the elements of an array and the code units of a string under
    their indices; a boolean or number wrapper has none. *)
Definition own_enumerable (v : value) : gmap jsstring value :=
  match v with
  | VObject properties => properties
  | VArray elements => list_to_map (imap (fun i x => (index_key i, x)) elements)
  | VString s => list_to_map (imap (fun i c => (index_key i, VString [c])) s)
  | _ => ∅
  end.

(** The property read [v.k], for a name [k] that is neither inherited from
    a built-in prototype nor [length] (none of the names the component
    reads is): a [TypeError] on [undefined] and [null], the own property
    or [undefined] otherwise. *)
Definition Get (v : value) (k : jsstring) : completion value :=
  match v with
  | VUndefined | VNull => Throw TypeError
  | _ => Ok (default VUndefined (own_enumerable v !! k))
  end.

(** The optional chain [v?.k]. *)
Definition GetOptional (v : value) (k : jsstring) : completion value :=
  match v with
  | VUndefined | VNull => Ok VUndefined
  | _ => Get v k
  end.

(** The object literal [{ ...a, ...b }] (CopyDataProperties twice): the
    later spread wins on a shared name, whole value for whole value. *)
Definition spread2 (a b : value) : value :=
  VObject (own_enumerable b ∪ own_enumerable a).

(** *** [encodeURIComponent] (the Encode operation of ECMA-262) *)

Definition in_range (lo hi c : N) : bool := (lo <=? c) && (c <=? hi).

(** uriUnreserved: ASCII letters, decimal digits and [-_.!~*'()]. *)
Definition uriUnreserved (c : N) : bool :=
  in_range 65 90 c || in_range 97 122 c || in_range 48 57 c
  || bool_decide (c ∈ lit "-_.!~*'()").

Definition is_leading_surrogate (c : N) : bool := in_range 0xD800 0xDBFF c.
Definition is_trailing_surrogate (c : N) : bool := in_range 0xDC00 0xDFFF c.

(** UTF16SurrogatePairToCodePoint. *)
Definition surrogate_pair (lead trail : N) : N :=
  (lead - 0xD800) * 0x400 + (trail - 0xDC00) + 0x10000.

(** The UTF-8 octets of a code point. *)
Definition utf8 (cp : N) : list N :=
  if cp <? 0x80 then [cp]
  else if cp <? 0x800 then [0xC0 + cp / 64; 0x80 + cp mod 64]
  else if cp <? 0x10000 then
    [0xE0 + cp / 4096; 0x80 + (cp / 64) mod 64; 0x80 + cp mod 64]
  else
    [0xF0 + cp / 262144; 0x80 + (cp / 4096) mod 64;
     0x80 + (cp / 64) mod 64; 0x80 + cp mod 64].

Definition hex_digit (d : N) : N :=
  nth (N.to_nat d) (lit "0123456789ABCDEF") 48.

(** ["%XX"], the octet in upper-case hexadecimal. *)
Definition percent (octet : N) : jsstring :=
  [37; hex_digit (octet / 16); hex_digit (octet mod 16)].

Definition escape (cp : N) : jsstring := utf8 cp ≫= percent.

(** Encode with no extra unescaped characters: an unreserved code unit is
    copied, any other code point is escaped octet by octet, and a
    surrogate that is not part of a pair throws a [URIError]. *)
Fixpoint Encode (s : jsstring) : completion jsstring :=
  match s with
  | [] => Ok []
  | c :: rest =>
      if uriUnreserved c then cmap (cons c) (Encode rest)
      else if is_trailing_surrogate c then Throw URIError
      else if is_leading_surrogate c then
        match rest with
        | c2 :: rest' =>
            if is_trailing_surrogate c2
            then cmap (app (escape (surrogate_pair c c2))) (Encode rest')
            else Throw URIError
        | [] => Throw URIError
        end
      else cmap (app (escape c)) (Encode rest)
  end.

Definition encodeURIComponent (v : value) : completion jsstring :=
  cbind (ToString v) Encode.

(** *** [JSON.parse] (the grammar of ECMA-404)

    The text is cut into tokens and the tokens are read by a machine with
    a stack of the arrays and objects still open.  The one part left open
    is the value of a number literal (its rounding to a double):
    [StringToNumber] is a parameter of the parser. *)

Inductive token :=
| TLBrace | TRBrace | TLBracket | TRBracket | TColon | TComma
| TString (s : jsstring)
| TNumber (lexeme : jsstring)
| TTrue | TFalse | TNull.

Definition is_digit (c : N) : bool := in_range 48 57 c.

(** The characters a number literal can contain. *)
Definition is_number_char (c : N) : bool :=
  is_digit c || bool_decide (c ∈ lit "+-.eE").

(** JSON white space: tab, line feed, carriage return, space. *)
Definition is_whitespace (c : N) : bool := bool_decide (c ∈ [9; 10; 13; 32]).

Fixpoint skip_digits (s : jsstring) : jsstring :=
  match s with
  | c :: rest => if is_digit c then skip_digits rest else s
  | [] => []
  end.

(** One or more digits, then the rest. *)
Definition digits1 (s : jsstring) : option jsstring :=
  match s with
  | c :: rest => if is_digit c then Some (skip_digits rest) else None
  | [] => None
  end.

(** A JSON number: an optional minus sign; then a zero, or a non-zero
    digit and any digits; then optionally a point and one or more digits;
    then optionally e or E, an optional sign and one or more digits. *)
Definition is_number_literal (s : jsstring) : bool :=
  let unsigned := match s with 45 :: rest => rest | _ => s end in
  let after_int :=
    match unsigned with
    | 48 :: rest => Some rest
    | _ => digits1 unsigned
    end in
  let after_frac :=
    after_int ≫= fun s1 =>
      match s1 with
      | 46 :: rest => digits1 rest
      | _ => Some s1
      end in
  let after_exp :=
    after_frac ≫= fun s2 =>
      match s2 with
      | 69 :: rest | 101 :: rest =>
          match rest with
          | 43 :: rest' | 45 :: rest' => digits1 rest'
          | _ => digits1 rest
          end
      | _ => Some s2
      end in
  bool_decide (after_exp = Some []).

Definition hex_value (c : N) : option N :=
  if is_digit c then Some (c - 48)
  else if in_range 65 70 c then Some (c - 55)
  else if in_range 97 102 c then Some (c - 87)
  else None.

(** The code unit of [\uXXXX]. *)
Definition unicode_escape (h1 h2 h3 h4 : N) : option N :=
  a ← hex_value h1; b ← hex_value h2; c ← hex_value h3; d ← hex_value h4;
  Some (((a * 16 + b) * 16 + c) * 16 + d).

(** The code unit of a one-character escape. *)
Definition simple_escape (c : N) : option N :=
  if bool_decide (c ∈ [34; 92; 47]) then Some c
  else if bool_decide (c = 98) then Some 8
  else if bool_decide (c = 102) then Some 12
  else if bool_decide (c = 110) then Some 10
  else if bool_decide (c = 114) then Some 13
  else if bool_decide (c = 116) then Some 9
  else None.

(** A number literal under way is closed by the first character that
    cannot continue it. *)
Definition close_number (pending : option jsstring) (toks : option (list token))
  : option (list token) :=
  match pending with
  | None => toks
  | Some lexeme =>
      if is_number_literal lexeme then cons (TNumber lexeme) <$> toks else None
  end.

(** The tokens of a text; [pending] holds the characters of the number
    literal being read, [lex_string] reads on after an opening quote. *)
Fixpoint lex (pending : option jsstring) (s : jsstring) {struct s}
  : option (list token) :=
  match s with
  | [] => close_number pending (Some [])
  | c :: rest =>
      if is_number_char c then lex (Some (default [] pending ++ [c])) rest
      else close_number pending
        (if is_whitespace c then lex None rest
         else if bool_decide (c = 123) then cons TLBrace <$> lex None rest
         else if bool_decide (c = 125) then cons TRBrace <$> lex None rest
         else if bool_decide (c = 91) then cons TLBracket <$> lex None rest
         else if bool_decide (c = 93) then cons TRBracket <$> lex None rest
         else if bool_decide (c = 58) then cons TColon <$> lex None rest
         else if bool_decide (c = 44) then cons TComma <$> lex None rest
         else if bool_decide (c = 34) then lex_string [] rest
         else
           match c, rest with
           | 116, 114 :: 117 :: 101 :: rest' => cons TTrue <$> lex None rest'
           | 102, 97 :: 108 :: 115 :: 101 :: rest' => cons TFalse <$> lex None rest'
           | 110, 117 :: 108 :: 108 :: rest' => cons TNull <$> lex None rest'
           | _, _ => None
           end)
  end
with lex_string (acc : jsstring) (s : jsstring) {struct s} : option (list token) :=
  match s with
  | [] => None
  | c :: rest =>
      if bool_decide (c = 34) then cons (TString acc) <$> lex None rest
      else if bool_decide (c = 92) then
        match rest with
        | 117 :: h1 :: h2 :: h3 :: h4 :: rest' =>
            match unicode_escape h1 h2 h3 h4 with
            | Some u => lex_string (acc ++ [u]) rest'
            | None => None
            end
        | e :: rest' =>
            match simple_escape e with
            | Some u => lex_string (acc ++ [u]) rest'
            | None => None
            end
        | [] => None
        end
      else if c <? 32 then None
      else lex_string (acc ++ [c]) rest
  end.

(** An array or object still open: its elements so far, or its properties
    so far and the name whose value is being read. *)
Inductive frame :=
| FArray (elements : list value)
| FObject (properties : gmap jsstring value) (name : jsstring).

Inductive parser :=
| PValue (may_close : bool) (stack : list frame)
    (* a value is due; just after ["["] the array may close instead *)
| PName (may_close : bool) (properties : gmap jsstring value) (stack : list frame)
    (* a property name is due; just after ["{"] the object may close *)
| PColon (properties : gmap jsstring value) (name : jsstring) (stack : list frame)
| PDone (v : value) (stack : list frame).
    (* [v] is complete inside the frames of [stack] *)

Section Parse.

Variable StringToNumber : jsstring -> jsstring.

Definition feed (st : parser) (tok : token) : option parser :=
  match st with
  | PValue may_close stack =>
      match tok with
      | TLBrace => Some (PName true ∅ stack)
      | TLBracket => Some (PValue true (FArray [] :: stack))
      | TString s => Some (PDone (VString s) stack)
      | TNumber lexeme => Some (PDone (VNumber (StringToNumber lexeme)) stack)
      | TTrue => Some (PDone (VBool true) stack)
      | TFalse => Some (PDone (VBool false) stack)
      | TNull => Some (PDone VNull stack)
      | TRBracket =>
          match may_close, stack with
          | true, FArray elements :: stack' => Some (PDone (VArray elements) stack')
          | _, _ => None
          end
      | _ => None
      end
  | PName may_close properties stack =>
      match tok with
      | TString name => Some (PColon properties name stack)
      | TRBrace => if may_close then Some (PDone (VObject properties) stack) else None
      | _ => None
      end
  | PColon properties name stack =>
      match tok with
      | TColon => Some (PValue false (FObject properties name :: stack))
      | _ => None
      end
  | PDone v stack =>
      match stack, tok with
      | FArray elements :: stack', TComma =>
          Some (PValue false (FArray (elements ++ [v]) :: stack'))
      | FArray elements :: stack', TRBracket =>
          Some (PDone (VArray (elements ++ [v])) stack')
      | FObject properties name :: stack', TComma =>
          Some (PName false (<[name := v]> properties) stack')
      | FObject properties name :: stack', TRBrace =>
          Some (PDone (VObject (<[name := v]> properties)) stack')
      | _, _ => None
      end
  end.

Fixpoint feed_all (st : parser) (toks : list token) : option parser :=
  match toks with
  | [] => Some st
  | tok :: rest => feed st tok ≫= fun st' => feed_all st' rest
  end.

(** [JSON.parse(text)]: the value of the text, or a [SyntaxError]. *)
Definition JSON_parse (text : jsstring) : completion value :=
  match lex None text ≫= feed_all (PValue false []) with
  | Some (PDone v []) => Ok v
  | _ => Throw SyntaxError
  end.

End Parse.

End JS.

Import JS.

(** ** Templates *)

Module Lit.

(** The closures the component binds to [@click]. *)
Inductive listener :=
| ClickLogin (provider : value)   (* [() => this.onLoginClicked(provider.id)] *)
| ClickLogout.                    (* [() => this.onLogoutClicked()] *)

Inductive attribute :=
| Attr (name text : string)                  (* a static attribute *)
| AttrBind (name : string) (v : value)       (* [name="${v}"] *)
| StyleMap (styles : list (string * value))  (* [style=${styleMap({...})}] *)
| On (event : string) (l : listener).        (* [@event=${l}] *)

(** What the [html] tag returns, as the tree of its static markup with the
    bound values in place (white space between tags left out).  A bound
    value is kept as it is: the tag converts nothing. *)
#[warnings="-register-all"]
Inductive template :=
| Element (tag : string) (attributes : list attribute) (children : list template)
| Text (text : string)
| Bind (v : value)                       (* [${v}] between tags *)
| UnsafeSVG (svg : jsstring)             (* [${unsafeSVG(svg)}] *)
| Nothing                                (* [${nothing}] *)
| Nested (roots : list template)         (* [${html`...`}] *)
| Items (items : list template).         (* [${array.map(...)}] *)

End Lit.

Import Lit.

(** ** The component *)

Module Auth.

Definition loginRoute : jsstring := lit "/.auth/login".
Definition logoutRoute : jsstring := lit "/.auth/logout".
Definition userDetailsRoute : jsstring := lit "/.auth/me".

(** The reactive properties and state of an [AuthComponent].  The declared
    types are erased at run time: a property holds whatever value was
    assigned to it, and [_userDetails] whatever the endpoint sent. *)
Record AuthComponent := {
  options : value;
  type : value;
  loginRedirect : value;
  logoutRedirect : value;
  _userDetails : value;
  loaded : bool;
}.

(** Assignments to the fields. *)
Definition with_options (v : value) (c : AuthComponent) : AuthComponent :=
  {| options := v; type := type c; loginRedirect := loginRedirect c;
     logoutRedirect := logoutRedirect c; _userDetails := _userDetails c;
     loaded := loaded c |}.

Definition with_type (v : value) (c : AuthComponent) : AuthComponent :=
  {| options := options c; type := v; loginRedirect := loginRedirect c;
     logoutRedirect := logoutRedirect c; _userDetails := _userDetails c;
     loaded := loaded c |}.

Definition with_loginRedirect (v : value) (c : AuthComponent) : AuthComponent :=
  {| options := options c; type := type c; loginRedirect := v;
     logoutRedirect := logoutRedirect c; _userDetails := _userDetails c;
     loaded := loaded c |}.

Definition with_logoutRedirect (v : value) (c : AuthComponent) : AuthComponent :=
  {| options := options c; type := type c; loginRedirect := loginRedirect c;
     logoutRedirect := v; _userDetails := _userDetails c; loaded := loaded c |}.

Definition with_userDetails (v : value) (c : AuthComponent) : AuthComponent :=
  {| options := options c; type := type c; loginRedirect := loginRedirect c;
     logoutRedirect := logoutRedirect c; _userDetails := v; loaded := loaded c |}.

Definition with_loaded (b : bool) (c : AuthComponent) : AuthComponent :=
  {| options := options c; type := type c; loginRedirect := loginRedirect c;
     logoutRedirect := logoutRedirect c; _userDetails := _userDetails c;
     loaded := b |}.

(** The promise [this.getUserInfo()] of the constructor. *)
Inductive promise :=
| Pending
| Fulfilled (v : value)
| Rejected (e : exn).

(** What the component can read and write: itself, [window.location.href]
    (the string last assigned to it), the requests sent with [fetch], the
    promise of the constructor and the rejections nothing handled. *)
Record World := {
  this : AuthComponent;
  location_href : jsstring;
  requests : list jsstring;
  userInfo : promise;
  unhandled : list exn;
}.

(** Methods run in a state and error monad over [World]; the state
    survives a throw. *)
Definition M (A : Type) : Type := World -> completion A * World.

Definition ret {A} (a : A) : M A := fun w => (Ok a, w).

Definition bind {A B} (m : M A) (k : A -> M B) : M B :=
  fun w =>
    match m w with
    | (Ok a, w') => k a w'
    | (Throw e, w') => (Throw e, w')
    end.

#[export] Instance M_ret : MRet M := @ret.
#[export] Instance M_bind : MBind M := fun A B k m => bind m k.

Definition gets {A} (f : AuthComponent -> A) : M A := fun w => (Ok (f (this w)), w).

Definition lift {A} (c : completion A) : M A := fun w => (c, w).

Definition set_this (c : AuthComponent) : M unit :=
  fun w =>
    (Ok tt, {| this := c; location_href := location_href w; requests := requests w;
               userInfo := userInfo w; unhandled := unhandled w |}).

(** An assignment to a field of [this]. *)
Definition assign (f : AuthComponent -> AuthComponent) : M unit :=
  fun w => set_this (f (this w)) w.

(** [window.location.href = url] *)
Definition set_location_href (url : jsstring) : M unit :=
  fun w =>
    (Ok tt, {| this := this w; location_href := url; requests := requests w;
               userInfo := userInfo w; unhandled := unhandled w |}).

(** [fetch(url)]: the request is sent. *)
Definition fetch (url : jsstring) : M unit :=
  fun w =>
    (Ok tt, {| this := this w; location_href := location_href w;
               requests := requests w ++ [url];
               userInfo := userInfo w; unhandled := unhandled w |}).

Definition settle (p : promise) (rejections : list exn) : M unit :=
  fun w =>
    (Ok tt, {| this := this w; location_href := location_href w; requests := requests w;
               userInfo := p; unhandled := unhandled w ++ rejections |}).

Fixpoint mapM {A B} (f : A -> M B) (l : list A) : M (list B) :=
  match l with
  | [] => ret []
  | x :: rest => y ← f x; ys ← mapM f rest; ret (y :: ys)
  end.

(** What the endpoint answers to the request of [getUserInfo]: [fetch]
    rejects with some error, or it resolves and [response.json()] rejects
    with some error, or the body is JSON. *)
Inductive answer :=
| FetchRejected (reason : exn)
| JsonRejected (reason : exn)
| Json (payload : value).

Section Component.

(** The assets the module imports ([?raw] and [?inline]): strings whose
    content is fixed when the package is built. *)
Variables personSvg logoutSvg microsoftSvg githubSvg : jsstring.

Definition AuthProvider (id label : string) (icon : jsstring) (color textColor : string)
  : value :=
  VObject {[ lit "id" := VString (lit id);
             lit "label" := VString (lit label);
             lit "icon" := VString icon;
             lit "color" := VString (lit color);
             lit "textColor" := VString (lit textColor) ]}.

Definition defaultProviders : list value := [
  AuthProvider "aad" "Sign in with Microsoft" microsoftSvg "#00A4EF" "#fff";
  AuthProvider "github" "Sign in with GitHub" githubSvg "#181717" "#fff";
  AuthProvider "google" "Sign in with Google"
    (lit "https://cdn.simpleicons.org/google/white") "#4285f4" "#fff";
  AuthProvider "facebook" "Sign in with Facebook"
    (lit "https://cdn.simpleicons.org/facebook/white") "#0866ff" "#fff";
  AuthProvider "apple" "Sign in with Apple"
    (lit "https://cdn.simpleicons.org/apple/white") "#000" "#fff";
  AuthProvider "twitter" "Sign in with X"
    (lit "https://cdn.simpleicons.org/x/white") "#000" "#fff";
  AuthProvider "oidc" "Sign in with OpenID Connect"
    (lit "https://cdn.simpleicons.org/openid/white") "#333" "#fff"
].

Definition defaultStrings : value :=
  VObject {[ lit "loginButton" := VString (lit "Log in");
             lit "logoutButton" := VString (lit "Log out") ]}.

Definition defaultOptions : value :=
  VObject {[ lit "strings" := defaultStrings;
             lit "providers" := VArray defaultProviders ]}.

(** [get userDetails()] *)
Definition userDetails : M value := gets _userDetails.

(** [onLoginClicked(provider)]; the template literal converts [provider]
    to a string before it evaluates the call of [encodeURIComponent]. *)
Definition onLoginClicked (provider : value) : M unit :=
  id ← lift (ToString provider);
  r ← gets loginRedirect;
  encoded ← lift (encodeURIComponent r);
  let redirect :=
    loginRoute ++ lit "/" ++ id ++ lit "?post_login_redirect_uri=" ++ encoded in
  set_location_href redirect.

(** [onLogoutClicked()] *)
Definition onLogoutClicked : M unit :=
  r ← gets logoutRedirect;
  encoded ← lift (encodeURIComponent r);
  let redirect := logoutRoute ++ lit "?post_logout_redirect_uri=" ++ encoded in
  set_location_href redirect.

(** [getUserInfo()], an async function, in its two parts: the call, which
    runs up to the first [await] (the request is sent), and the rest of
    the body, run when the endpoint has answered, which settles the
    promise the call returned. *)
Definition getUserInfo : M unit := fetch userDetailsRoute.

Definition getUserInfo_resumed (a : answer) : completion value :=
  match a with
  | FetchRejected reason => Throw reason
  | JsonRejected reason => Throw reason
  | Json payload => GetOptional payload (lit "clientPrincipal")
  end.

(** The fields as the class initialises them. *)
Definition fields : AuthComponent := {|
  options := defaultOptions;
  type := VString (lit "login");
  loginRedirect := VString (lit "/");
  logoutRedirect := VString (lit "/");
  _userDetails := VUndefined;
  loaded := false;
|}.

(** [constructor()]: the fields are initialised and [getUserInfo] is
    called; [constructor_then] is the callback given to [then]. *)
Definition constructor : M unit :=
  set_this fields;;
  getUserInfo.

Definition constructor_then (userDetails : value) : M unit :=
  assign (with_userDetails userDetails);;
  assign (with_loaded true).

(** [renderStatus] *)
Definition renderStatus : M template :=
  details ← gets _userDetails;
  signedIn ←
    (if ToBoolean details then
       name ← lift (Get details (lit "userDetails"));
       ret (Nested [
         Element "p" [] [Text "Logged in as "; Bind name];
         Element "button" [On "click" ClickLogout] [Text "Logout"] ])
     else ret Nothing);
  ret (Element "section" [Attr "class" "auth-status"] [
    Element "span" [Attr "class" "login-icon"] [UnsafeSVG personSvg];
    signedIn ]).

(** The button of one provider in [renderLogin]. *)
Definition renderProvider (provider : value) : M template :=
  backgroundColor ← lift (Get provider (lit "color"));
  color ← lift (Get provider (lit "textColor"));
  icon ← lift (Get provider (lit "icon"));
  label ← lift (Get provider (lit "label"));
  ret (Element "button"
    [ Attr "class" "login"; On "click" (ClickLogin provider);
      StyleMap [("backgroundColor"%string, backgroundColor); ("color"%string, color)] ]
    [ Element "img" [AttrBind "src" icon; Attr "alt" ""] [];
      Element "span" [] [Bind label] ]).

(** [array.map(f)]: only an array has the method. *)
Definition Array_map (array : value) (f : value -> M template) : M (list template) :=
  match array with
  | VArray elements => mapM f elements
  | _ => lift (Throw TypeError)
  end.

(** [renderLogin] *)
Definition renderLogin : M template :=
  details ← userDetails;
  if ToBoolean details then ret (Element "slot" [] [])
  else
    opts ← gets options;
    providers ← lift (Get opts (lit "providers"));
    buttons ← Array_map providers renderProvider;
    ret (Element "section" [Attr "class" "auth-login"] [Items buttons]).

(** [renderLogout] *)
Definition renderLogout : M template :=
  ret (Element "button"
    [Attr "class" "logout"; On "click" ClickLogout; Attr "title" "log out"]
    [UnsafeSVG logoutSvg]).

(** [render()] *)
Definition render : M template :=
  t ← gets type;
  if strict_eq_string t (lit "status") then renderStatus
  else if strict_eq_string t (lit "logout") then renderLogout
  else renderLogin.

(** A click on a button of a rendered template runs its listener. *)
Definition click (l : listener) : M unit :=
  match l with
  | ClickLogin provider =>
      id ← lift (Get provider (lit "id"));
      onLoginClicked id
  | ClickLogout => onLogoutClicked
  end.

(** *** The life of one instance *)

(** The members of the component that can be called. *)
Inductive operation :=
| Render | RenderStatus | RenderLogin | RenderLogout
| OnLoginClicked (provider : value)
| OnLogoutClicked
| GetUserDetails.

Inductive returned :=
| RTemplate (t : template)
| RValue (v : value)
| RVoid.

Definition perform (op : operation) : M returned :=
  match op with
  | Render => t ← render; ret (RTemplate t)
  | RenderStatus => t ← renderStatus; ret (RTemplate t)
  | RenderLogin => t ← renderLogin; ret (RTemplate t)
  | RenderLogout => t ← renderLogout; ret (RTemplate t)
  | OnLoginClicked provider => onLoginClicked provider;; ret RVoid
  | OnLogoutClicked => onLogoutClicked;; ret RVoid
  | GetUserDetails => v ← userDetails; ret (RValue v)
  end.

(** What happens to an instance once constructed: the endpoint answers, the
    host page assigns one of the four public properties (an attribute
    change arrives as the assignment of its converted value), a member is
    called, a rendered button is clicked. *)
Inductive event :=
| Answer (a : answer)
| SetOptions (v : value)
| SetType (v : value)
| SetLoginRedirect (v : value)
| SetLogoutRedirect (v : value)
| Call (op : operation)
| Click (l : listener).

(** The promise settles once, on the first answer: fulfilled, it runs the
    callback of the constructor; rejected, nothing handles it. *)
Definition answered (a : answer) : M unit :=
  fun w =>
    match userInfo w with
    | Pending =>
        match getUserInfo_resumed a with
        | Ok v => (settle (Fulfilled v) [];; constructor_then v) w
        | Throw e => settle (Rejected e) [e] w
        end
    | _ => (Ok tt, w)
    end.

Definition happen (ev : event) : M unit :=
  match ev with
  | Answer a => answered a
  | SetOptions v => assign (with_options v)
  | SetType v => assign (with_type v)
  | SetLoginRedirect v => assign (with_loginRedirect v)
  | SetLogoutRedirect v => assign (with_logoutRedirect v)
  | Call op => perform op;; ret tt
  | Click l => click l
  end.

(** One event, whatever it returns or throws, leaves a world. *)
Definition step (w : World) (ev : event) : World := snd (happen ev w).

Definition run (w : World) (evs : list event) : World := fold_left step evs w.

(** The world just after [new AuthComponent()] on a page at [page]: before
    it no request was sent and no rejection left unhandled. *)
Definition created (page : jsstring) : World :=
  snd (constructor {| this := fields; location_href := page; requests := [];
                      userInfo := Pending; unhandled := [] |}).

(** *** The converter of the [options] attribute *)

Variable StringToNumber : jsstring -> jsstring.

(** [value || '{}'] on the attribute value, [null] when the attribute is
    absent. *)
Definition or_empty_object (attribute : option jsstring) : jsstring :=
  match attribute with
  | None => lit "{}"
  | Some text => if ToBoolean (VString text) then text else lit "{}"
  end.

(** [(value) => ({ ...defaultOptions, ...JSON.parse(value || '{}') })] *)
Definition converter (attribute : option jsstring) : completion value :=
  cbind (JSON_parse StringToNumber (or_empty_object attribute))
        (fun parsed => Ok (spread2 defaultOptions parsed)).

End Component.

End Auth.

Import Auth.

(** ** Observations on strings, templates and worlds *)

(** A code unit that needs no escaping inside a query parameter: an
    unreserved character, or the percent sign of an escape. *)
Definition url_safe (c : N) : Prop := uriUnreserved c = true \/ c = 37.

(** [String.prototype.isWellFormed]: no surrogate outside a pair. *)
Fixpoint isWellFormed (s : jsstring) : bool :=
  match s with
  | [] => true
  | c :: rest =>
      if is_trailing_surrogate c then false
      else if is_leading_surrogate c then
        match rest with
        | c2 :: rest' => is_trailing_surrogate c2 && isWellFormed rest'
        | [] => false
        end
      else isWellFormed rest
  end.

(** The listeners a template binds, in document order. *)
Fixpoint listeners (t : template) : list listener :=
  let each :=
    fix each (ts : list template) : list listener :=
      match ts with
      | [] => []
      | t' :: rest => listeners t' ++ each rest
      end in
  match t with
  | Element _ attributes children =>
      omap (fun a => match a with On _ l => Some l | _ => None end) attributes
        ++ each children
  | Nested roots => each roots
  | Items items => each items
  | _ => []
  end.

(** The [class] attribute of the root element of a template. *)
Definition root_class (t : template) : option (string * option string) :=
  match t with
  | Element tag attributes _ =>
      Some (tag, head (omap (fun a => match a with
                                       | Attr "class" c => Some c
                                       | _ => None
                                       end) attributes))
  | _ => None
  end.

Inductive branch := StatusBranch | LoginBranch | LogoutBranch.

(** The branch a rendered template comes from, told by its root: the
    status section, the logout button, and for the login branch the slot
    or the login section. *)
Definition branch_of (t : template) : option branch :=
  match root_class t with
  | Some ("section", Some "auth-status") => Some StatusBranch
  | Some ("button", Some "logout") => Some LogoutBranch
  | Some ("section", Some "auth-login") => Some LoginBranch
  | Some ("slot", None) => Some LoginBranch
  | _ => None
  end%string.

(** [v.k] on a value that is neither [undefined] nor [null]. *)
Definition property (v : value) (k : string) : value :=
  default VUndefined (own_enumerable v !! lit k).

Definition is_nullish (v : value) : bool :=
  match v with
  | VUndefined | VNull => true
  | _ => false
  end.

(** The login button of one provider. *)
Definition login_button (provider : value) : template :=
  Element "button"
    [ Attr "class" "login"; On "click" (ClickLogin provider);
      StyleMap [("backgroundColor"%string, property provider "color");
                ("color"%string, property provider "textColor")] ]
    [ Element "img" [AttrBind "src" (property provider "icon"); Attr "alt" ""] [];
      Element "span" [] [Bind (property provider "label")] ].

(** The status section, with or without the signed-in part. *)
Definition status_section (personSvg : jsstring) (signedIn : template) : template :=
  Element "section" [Attr "class" "auth-status"] [
    Element "span" [Attr "class" "login-icon"] [UnsafeSVG personSvg];
    signedIn ].

Definition signed_in (details : value) : template :=
  Nested [
    Element "p" [] [Text "Logged in as "; Bind (property details "userDetails")];
    Element "button" [On "click" ClickLogout] [Text "Logout"] ].

(** [w] after [window.location.href = url]. *)
Definition navigated (url : jsstring) (w : World) : World :=
  {| this := this w; location_href := url; requests := requests w;
     userInfo := userInfo w; unhandled := unhandled w |}.

(** A computation that leaves the world as it found it. *)
Definition reads_only {A} (m : M A) : Prop := forall w, snd (m w) = w.

(** A computation that writes at most [window.location.href]. *)
Definition navigates_only {A} (m : M A) : Prop :=
  forall w, exists url, snd (m w) = navigated url w.

Definition settled (w : World) : bool :=
  match userInfo w with
  | Pending => false
  | _ => true
  end.

(** A JSON text written with single quotes for its double quotes. *)
Definition json (s : string) : jsstring :=
  (fun c => if bool_decide (c = 39) then 34 else c) <$> lit s.

(** The entries of [options.providers] when the login branch can render
    them: [options] is neither [undefined] nor [null], its [providers] is
    an array, and no entry of the array is [undefined] or [null]. *)
Definition renderable_providers (opts : value) : option (list value) :=
  if is_nullish opts then None
  else
    match property opts "providers" with
    | VArray entries =>
        if forallb (fun p => negb (is_nullish p)) entries then Some entries else None
    | _ => None
    end.

(** The login section for the entries of [options.providers]. *)
Definition login_section (entries : list value) : template :=
  Element "section" [Attr "class" "auth-login"] [Items (login_button <$> entries)].

(** The logout button of [renderLogout]. *)
Definition logout_button (logoutSvg : jsstring) : template :=
  Element "button"
    [Attr "class" "logout"; On "click" ClickLogout; Attr "title" "log out"]
    [UnsafeSVG logoutSvg].

(** The events that call one of the two redirect methods. *)
Definition redirects (ev : event) : bool :=
  match ev with
  | Call (OnLoginClicked _) | Call OnLogoutClicked | Click _ => true
  | _ => false
  end.

(** How the state the constructor's callback writes goes with the promise
    of the constructor: untouched while the promise is pending or
    rejected, written once it is fulfilled; a rejection is left unhandled
    once; one request was sent. *)
Definition consistent (w : World) : Prop :=
  requests w = [userDetailsRoute]
  /\ match userInfo w with
     | Pending =>
         _userDetails (this w) = VUndefined /\ loaded (this w) = false
         /\ unhandled w = []
     | Fulfilled v =>
         _userDetails (this w) = v /\ loaded (this w) = true /\ unhandled w = []
     | Rejected e =>
         _userDetails (this w) = VUndefined /\ loaded (this w) = false
         /\ unhandled w = [e]
     end.

(** ** Worked instances *)

Module Sample.

Definition svg : jsstring := lit "<svg/>".
Definition page : jsstring := lit "https://example.org/chat".

(** A signed-in user, as the endpoint reports one. *)
Definition principal : value :=
  VObject {[ lit "identityProvider" := VString (lit "github");
             lit "userId" := VString (lit "d75b260a64504067bfc5b2905e3b8182");
             lit "userDetails" := VString (lit "octocat");
             lit "userRoles" :=
               VArray [VString (lit "anonymous"); VString (lit "authenticated")];
             lit "claims" := VArray [] ]}.

Definition signed_in_payload : value := VObject {[ lit "clientPrincipal" := principal ]}.

(** Nobody is signed in: the endpoint sends a [null] principal. *)
Definition anonymous_payload : value := VObject {[ lit "clientPrincipal" := VNull ]}.

Definition fresh : World := created svg svg page.

Definition anonymous : World := step svg svg fresh (Answer (Json anonymous_payload)).

Definition signed_in_world : World := step svg svg fresh (Answer (Json signed_in_payload)).

End Sample.

Import Sample.

(** ** Properties of the platform model *)

(** Induction over a string read one or two code units at a time. *)
Lemma jsstring_ind2 (P : jsstring -> Prop) :
  P [] ->
  (forall c rest,
      P rest -> (forall c2 rest', rest = c2 :: rest' -> P rest') -> P (c :: rest)) ->
  forall s, P s.
Proof.
  intros Hnil Hcons s.
  enough (P s /\ (forall c2 rest', s = c2 :: rest' -> P rest')) by tauto.
  induction s as [|c s [IH1 IH2]].
  - split; [exact Hnil | discriminate].
  - split.
    + apply Hcons; assumption.
    + intros c2 rest' [= _ <-]. exact IH1.
Qed.

Lemma hex_digit_unreserved (d : N) : uriUnreserved (hex_digit d) = true.
Proof.
  unfold hex_digit. generalize (N.to_nat d). intros n.
  do 16 (destruct n as [|n]; [reflexivity|]).
  destruct n; reflexivity.
Qed.

Lemma escape_url_safe (cp : N) : Forall url_safe (escape cp).
Proof.
  unfold escape. induction (utf8 cp) as [|octet octets IH]; [constructor|].
  change (Forall url_safe (percent octet ++ (octets ≫= percent))).
  apply Forall_app. split; [|exact IH].
  unfold percent. apply Forall_cons; split; [right; reflexivity|].
  repeat (apply Forall_cons; split; [left; apply hex_digit_unreserved|]).
  constructor.
Qed.

Lemma Encode_url_safe (s encoded : jsstring) :
  Encode s = Ok encoded -> Forall url_safe encoded.
Proof.
  revert encoded. induction s as [|c rest IH1 IH2] using jsstring_ind2;
    intros encoded; simpl.
  - intros [= <-]. constructor.
  - destruct (uriUnreserved c) eqn:Hc.
    { destruct (Encode rest) as [e|]; [|discriminate]. intros [= <-].
      constructor; [left; exact Hc | apply IH1; reflexivity]. }
    destruct (is_trailing_surrogate c); [discriminate|].
    destruct (is_leading_surrogate c).
    + destruct rest as [|c2 rest']; [discriminate|].
      destruct (is_trailing_surrogate c2); [|discriminate].
      destruct (Encode rest') as [e|] eqn:He; [|discriminate]. intros [= <-].
      apply Forall_app. split; [apply escape_url_safe|].
      eapply IH2; [reflexivity | exact He].
    + destruct (Encode rest) as [e|]; [|discriminate]. intros [= <-].
      apply Forall_app. split; [apply escape_url_safe | apply IH1; reflexivity].
Qed.

(** The only error of [Encode] is the [URIError]. *)
Lemma Encode_throws (s : jsstring) (e : exn) : Encode s = Throw e -> e = URIError.
Proof.
  revert e. induction s as [|c rest IH1 IH2] using jsstring_ind2; intros e; simpl.
  - discriminate.
  - destruct (uriUnreserved c).
    { destruct (Encode rest); [discriminate|]. intros [= <-]. apply IH1; reflexivity. }
    destruct (is_trailing_surrogate c); [congruence|].
    destruct (is_leading_surrogate c).
    + destruct rest as [|c2 rest']; [congruence|].
      destruct (is_trailing_surrogate c2); [|congruence].
      destruct (Encode rest') eqn:He; [discriminate|]. intros [= <-].
      eapply IH2; [reflexivity | exact He].
    + destruct (Encode rest); [discriminate|]. intros [= <-]. apply IH1; reflexivity.
Qed.

Lemma uriUnreserved_not_surrogate (c : N) :
  uriUnreserved c = true ->
  is_trailing_surrogate c = false /\ is_leading_surrogate c = false.
Proof.
  intros H.
  assert (c < 128) as Hlt.
  { unfold uriUnreserved, in_range in H.
    repeat (apply orb_true_iff in H as [H|H]);
      try (apply andb_true_iff in H as [_ H]; apply N.leb_le in H; lia).
    apply bool_decide_eq_true in H. revert H. cbn.
    rewrite !elem_of_cons, elem_of_nil. intros H.
    repeat (destruct H as [->|H]; [reflexivity|]). destruct H. }
  unfold is_trailing_surrogate, is_leading_surrogate, in_range.
  split; apply andb_false_iff; left; apply N.leb_gt; lia.
Qed.

(** [Encode] returns exactly on the well-formed strings. *)
Lemma Encode_returns_iff (s : jsstring) :
  (exists encoded, Encode s = Ok encoded) <-> isWellFormed s = true.
Proof.
  induction s as [|c rest IH1 IH2] using jsstring_ind2; simpl.
  - split; eauto.
  - destruct (uriUnreserved c) eqn:Hc.
    { destruct (uriUnreserved_not_surrogate c Hc) as [-> ->].
      rewrite <- IH1. destruct (Encode rest); simpl; split; intros [x Hx]; eauto; discriminate. }
    destruct (is_trailing_surrogate c).
    { split; [intros [x Hx]|]; discriminate. }
    destruct (is_leading_surrogate c).
    + destruct rest as [|c2 rest'].
      { split; [intros [x Hx]|]; discriminate. }
      destruct (is_trailing_surrogate c2); simpl.
      * rewrite <- (IH2 c2 rest' eq_refl).
        destruct (Encode rest'); simpl; split; intros [x Hx]; eauto; discriminate.
      * split; [intros [x Hx]|]; discriminate.
    + rewrite <- IH1. destruct (Encode rest); simpl; split; intros [x Hx]; eauto; discriminate.
Qed.

(** ** The platform model on known inputs *)

Example encode_reserved :
  encodeURIComponent (VString (lit "/a b?c=d&e#f+g"))
  = Ok (lit "%2Fa%20b%3Fc%3Dd%26e%23f%2Bg").
Proof. reflexivity. Qed.

Example encode_unreserved :
  encodeURIComponent (VString (lit "Az09-_.!~*'()")) = Ok (lit "Az09-_.!~*'()").
Proof. reflexivity. Qed.

(** U+00E9, U+20AC and U+1F600 (a surrogate pair). *)
Example encode_utf8 :
  encodeURIComponent (VString [0xE9; 0x20AC; 0xD83D; 0xDE00])
  = Ok (lit "%C3%A9%E2%82%AC%F0%9F%98%80").
Proof. reflexivity. Qed.

Example encode_lone_surrogate :
  encodeURIComponent (VString [0xD83D]) = Throw URIError
  /\ encodeURIComponent (VString [0xDE00; 0xD83D]) = Throw URIError.
Proof. split; reflexivity. Qed.

Example encode_null : encodeURIComponent VNull = Ok (lit "null").
Proof. reflexivity. Qed.

Example ToString_array :
  ToString (VArray [VNumber (lit "1"); VNull;
                    VArray [VBool true; VString (lit "x")]; VObject ∅])
  = Ok (lit "1,,true,x,[object Object]").
Proof. reflexivity. Qed.

(** An own [toString] that is not a function leaves no way to a string. *)
Example ToString_shadowed :
  ToString (VObject {[ lit "toString" := VNumber (lit "1") ]}) = Throw TypeError
  /\ ToString (VArray [VString (lit "a");
                       VObject {[ lit "toString" := VNull ]}]) = Throw TypeError
  /\ ToString (VObject {[ lit "valueOf" := VNumber (lit "1") ]})
     = Ok (lit "[object Object]").
Proof. repeat split; reflexivity. Qed.

Example spread_array :
  own_enumerable (VArray [VNull; VBool true]) !! lit "1" = Some (VBool true)
  /\ own_enumerable (VString (lit "ab")) !! lit "0" = Some (VString (lit "a")).
Proof. split; reflexivity. Qed.

Section ParseExamples.

Variable StringToNumber : jsstring -> jsstring.

Example parse_empty_object : JSON_parse StringToNumber (lit "{}") = Ok (VObject ∅).
Proof. reflexivity. Qed.

(** Of two properties of one name the later wins. *)
Example parse_duplicate :
  JSON_parse StringToNumber (json "{'a':[1,true,null,{'b':'x'}],'a':-1.5e+3}")
  = Ok (VObject {[ lit "a" := VNumber (StringToNumber (lit "-1.5e+3")) ]}).
Proof. vm_compute. reflexivity. Qed.

Example parse_nested :
  JSON_parse StringToNumber (json " [1, true ,null,{'b':'x\n\u00e9\''},[],[[ ]]] ")
  = Ok (VArray [VNumber (StringToNumber (lit "1")); VBool true; VNull;
                VObject {[ lit "b" := VString [120; 10; 233; 34] ]};
                VArray []; VArray [VArray []]]).
Proof. vm_compute. reflexivity. Qed.

Example parse_rejects :
  Forall (fun text => JSON_parse StringToNumber (json text) = Throw SyntaxError)
    [ ""; "{"; "}"; "[1,]"; "{,}"; "{'a'}"; "{'a':}"; "{'a':1,}"; "01"; "1."; ".5";
      "-"; "1e"; "+1"; "tru"; "truefalse"; "1 2"; "[1 2]"; "'a"; "'\x'"; "[]]";
      "{a:1}"; "1true"; "undefined"; "NaN"; "[,1]"; "{'a':1 'b':2}"; "[}"; "{]";
      "1-2"; "--1"; "1.5.2"; "1e+"; "0x10"; "[1,,2]"; "{'a':1}}"; "not json" ]%string.
Proof. repeat constructor. Qed.

Example parse_accepts :
  Forall (fun text => exists v, JSON_parse StringToNumber (json text) = Ok v)
    [ "0"; "-0"; "1.5"; "1e5"; "1E-5"; "0.0e+0"; "10"; "true"; " false "; "null";
      "''"; "'A\'\\\/\b\f\n\r\t'"; "[[[]]]"; "{'a':{'b':{}}}"; "[1, 2 ,3]";
      "{ 'a' : 1 , 'b' : [ ] }"; "-12.50E+10" ]%string.
Proof. repeat constructor; eexists; vm_compute; reflexivity. Qed.

End ParseExamples.

(** ** The monad *)

Ltac unfold_M :=
  unfold mbind, M_bind, bind, mret, M_ret, ret, gets, lift, assign, set_this,
    set_location_href, fetch, settle in *.

Lemma reads_only_ret {A} (a : A) : reads_only (ret a).
Proof. intros w. reflexivity. Qed.

Lemma reads_only_gets {A} (f : AuthComponent -> A) : reads_only (gets f).
Proof. intros w. reflexivity. Qed.

Lemma reads_only_lift {A} (c : completion A) : reads_only (lift c).
Proof. intros w. reflexivity. Qed.

Lemma reads_only_bind {A B} (m : M A) (k : A -> M B) :
  reads_only m -> (forall a, reads_only (k a)) -> reads_only (m ≫= k).
Proof.
  intros Hm Hk w. unfold_M. specialize (Hm w).
  destruct (m w) as [[a|e] w']; simpl in Hm; subst w'; [apply Hk | reflexivity].
Qed.

Lemma reads_only_if {A} (b : bool) (m1 m2 : M A) :
  reads_only m1 -> reads_only m2 -> reads_only (if b then m1 else m2).
Proof. destruct b; auto. Qed.

Lemma reads_only_mapM {A B} (f : A -> M B) (l : list A) :
  (forall x, reads_only (f x)) -> reads_only (mapM f l).
Proof.
  intros Hf. induction l as [|x rest IH]; simpl.
  - apply reads_only_ret.
  - apply reads_only_bind; [apply Hf|]. intros y.
    apply reads_only_bind; [exact IH|]. intros ys. apply reads_only_ret.
Qed.

Create HintDb reads discriminated.
#[local] Hint Resolve reads_only_ret reads_only_gets reads_only_lift
  reads_only_bind reads_only_if reads_only_mapM : reads.

Lemma navigated_id (w : World) : navigated (location_href w) w = w.
Proof. destruct w; reflexivity. Qed.

Lemma navigated_twice (u v : jsstring) (w : World) :
  navigated u (navigated v w) = navigated u w.
Proof. reflexivity. Qed.

Lemma reads_only_navigates {A} (m : M A) : reads_only m -> navigates_only m.
Proof. intros H w. exists (location_href w). rewrite H. symmetry. apply navigated_id. Qed.

Lemma navigates_only_bind {A B} (m : M A) (k : A -> M B) :
  navigates_only m -> (forall a, navigates_only (k a)) -> navigates_only (m ≫= k).
Proof.
  intros Hm Hk w. unfold_M. destruct (Hm w) as [u Hu].
  destruct (m w) as [[a|e] w']; simpl in Hu; subst w'.
  - destruct (Hk a (navigated u w)) as [v Hv]. exists v. rewrite Hv. apply navigated_twice.
  - exists u. reflexivity.
Qed.

Lemma navigates_only_set_location_href (url : jsstring) :
  navigates_only (set_location_href url).
Proof. intros w. exists url. reflexivity. Qed.

Section Members.

Variables personSvg logoutSvg : jsstring.

Lemma renderStatus_reads : reads_only (renderStatus personSvg).
Proof. unfold renderStatus. auto 10 with reads. Qed.

Lemma renderProvider_reads (provider : value) : reads_only (renderProvider provider).
Proof. unfold renderProvider. auto 10 with reads. Qed.

Lemma renderLogin_reads : reads_only renderLogin.
Proof.
  unfold renderLogin, userDetails, Array_map.
  apply reads_only_bind; [auto with reads|]. intros details.
  apply reads_only_if; [auto with reads|].
  apply reads_only_bind; [auto with reads|]. intros opts.
  apply reads_only_bind; [auto with reads|]. intros providers.
  apply reads_only_bind; [|auto with reads].
  destruct providers; auto using renderProvider_reads with reads.
Qed.

Lemma renderLogout_reads : reads_only (renderLogout logoutSvg).
Proof. unfold renderLogout. auto with reads. Qed.

Lemma render_reads : reads_only (render personSvg logoutSvg).
Proof.
  unfold render. apply reads_only_bind; [auto with reads|]. intros t.
  repeat apply reads_only_if;
    auto using renderStatus_reads, renderLogin_reads, renderLogout_reads.
Qed.

Lemma onLoginClicked_navigates (provider : value) : navigates_only (onLoginClicked provider).
Proof.
  unfold onLoginClicked.
  apply navigates_only_bind; [apply reads_only_navigates; auto with reads|]. intros id.
  apply navigates_only_bind; [apply reads_only_navigates; auto with reads|]. intros r.
  apply navigates_only_bind; [apply reads_only_navigates; auto with reads|]. intros e.
  apply navigates_only_set_location_href.
Qed.

Lemma onLogoutClicked_navigates : navigates_only onLogoutClicked.
Proof.
  unfold onLogoutClicked.
  apply navigates_only_bind; [apply reads_only_navigates; auto with reads|]. intros r.
  apply navigates_only_bind; [apply reads_only_navigates; auto with reads|]. intros e.
  apply navigates_only_set_location_href.
Qed.

Lemma click_navigates (l : listener) : navigates_only (click l).
Proof.
  destruct l as [provider|]; simpl; [|apply onLogoutClicked_navigates].
  apply navigates_only_bind; [apply reads_only_navigates; auto with reads|].
  intros id. apply onLoginClicked_navigates.
Qed.

Lemma perform_navigates (op : operation) : navigates_only (perform personSvg logoutSvg op).
Proof.
  destruct op; simpl;
    (apply navigates_only_bind;
     [|intros; apply reads_only_navigates; auto with reads]);
    auto using reads_only_navigates, render_reads, renderStatus_reads,
      renderLogin_reads, renderLogout_reads, onLoginClicked_navigates,
      onLogoutClicked_navigates with reads.
Qed.

End Members.

(** ** What the branches return *)

Lemma Get_truthy (v : value) (k : string) :
  ToBoolean v = true -> Get v (lit k) = Ok (property v k).
Proof. destruct v; simpl; (discriminate || reflexivity). Qed.

Lemma Get_not_nullish (v : value) (k : string) :
  is_nullish v = false -> Get v (lit k) = Ok (property v k).
Proof. destruct v; simpl; (discriminate || reflexivity). Qed.

Lemma renderStatus_returns (personSvg : jsstring) (w : World) :
  renderStatus personSvg w =
    (Ok (status_section personSvg
           (if ToBoolean (_userDetails (this w))
            then signed_in (_userDetails (this w))
            else Nothing)), w).
Proof.
  unfold renderStatus. unfold_M.
  destruct (ToBoolean (_userDetails (this w))) eqn:Ht; [|reflexivity].
  rewrite (Get_truthy _ "userDetails" Ht). reflexivity.
Qed.

Lemma renderProvider_returns (provider : value) (w : World) :
  is_nullish provider = false ->
  renderProvider provider w = (Ok (login_button provider), w).
Proof.
  intros Hp. unfold renderProvider. unfold_M.
  rewrite !(Get_not_nullish _ _ Hp). reflexivity.
Qed.

Lemma mapM_renderProvider (providers : list value) (w : World) :
  Forall (fun p => is_nullish p = false) providers ->
  mapM renderProvider providers w = (Ok (login_button <$> providers), w).
Proof.
  induction 1 as [|p rest Hp _ IH]; [reflexivity|].
  simpl. unfold_M. rewrite (renderProvider_returns _ _ Hp), IH. reflexivity.
Qed.

Lemma renderLogin_truthy (w : World) :
  ToBoolean (_userDetails (this w)) = true ->
  renderLogin w = (Ok (Element "slot" [] []), w).
Proof. intros Ht. unfold renderLogin, userDetails. unfold_M. rewrite Ht. reflexivity. Qed.

Lemma renderLogin_falsy (w : World) (providers : list value) :
  ToBoolean (_userDetails (this w)) = false ->
  Get (options (this w)) (lit "providers") = Ok (VArray providers) ->
  Forall (fun p => is_nullish p = false) providers ->
  renderLogin w =
    (Ok (Element "section" [Attr "class" "auth-login"]
           [Items (login_button <$> providers)]), w).
Proof.
  intros Hf Hget Hall. unfold renderLogin, userDetails, Array_map. unfold_M.
  rewrite Hf, Hget, (mapM_renderProvider _ _ Hall). reflexivity.
Qed.

Lemma renderProvider_nullish (provider : value) (w : World) :
  is_nullish provider = true -> renderProvider provider w = (Throw TypeError, w).
Proof. destruct provider; try discriminate; reflexivity. Qed.

Lemma mapM_renderProvider_cases (entries : list value) (w : World) :
  mapM renderProvider entries w =
    (if forallb (fun p => negb (is_nullish p)) entries
     then Ok (login_button <$> entries) else Throw TypeError, w).
Proof.
  induction entries as [|p rest IH]; [reflexivity|].
  simpl. unfold_M. destruct (is_nullish p) eqn:Hp; simpl.
  - rewrite (renderProvider_nullish _ _ Hp). reflexivity.
  - rewrite (renderProvider_returns _ _ Hp), IH.
    destruct (forallb _ rest); reflexivity.
Qed.

Lemma some_nullish (entries : list value) :
  Exists (fun p => is_nullish p = true) entries <->
  forallb (fun p => negb (is_nullish p)) entries = false.
Proof.
  induction entries as [|p rest IH]; simpl.
  - split; [intros H; inversion H | discriminate].
  - rewrite Exists_cons, IH. destruct (is_nullish p); simpl; intuition congruence.
Qed.

Lemma renderLogin_cases (w : World) :
  renderLogin w =
    (if ToBoolean (_userDetails (this w)) then Ok (Element "slot" [] [])
     else
       match renderable_providers (options (this w)) with
       | Some entries => Ok (login_section entries)
       | None => Throw TypeError
       end, w).
Proof.
  destruct (ToBoolean (_userDetails (this w))) eqn:Ht;
    [apply renderLogin_truthy, Ht|].
  unfold renderLogin, userDetails, Array_map, renderable_providers. unfold_M.
  rewrite Ht.
  destruct (is_nullish (options (this w))) eqn:Hn.
  { destruct (options (this w)); try discriminate; reflexivity. }
  rewrite (Get_not_nullish _ "providers" Hn).
  destruct (property (options (this w)) "providers"); try reflexivity.
  rewrite mapM_renderProvider_cases. destruct (forallb _ _); reflexivity.
Qed.

(** ** The redirects *)

(** What [encodeURIComponent] does with a value: it returns for a value
    whose string is well formed, throws the [TypeError] of [ToString], and
    throws a [URIError] for a string with a surrogate outside a pair. *)
Lemma encodeURIComponent_cases (r : value) :
  match encodeURIComponent r with
  | Ok encoded =>
      Forall url_safe encoded
      /\ exists s, ToString r = Ok s /\ isWellFormed s = true
  | Throw e =>
      (e = TypeError /\ ToString r = Throw TypeError)
      \/ (e = URIError /\ exists s, ToString r = Ok s /\ isWellFormed s = false)
  end.
Proof.
  unfold encodeURIComponent, ToString.
  destruct (to_string r) as [s|]; simpl; [|left; auto].
  pose proof (Encode_returns_iff s) as Hwf.
  destruct (Encode s) as [encoded|e] eqn:He.
  - split; [exact (Encode_url_safe _ _ He)|].
    exists s. split; [reflexivity | apply Hwf; eauto].
  - right. split; [exact (Encode_throws _ _ He)|].
    exists s. split; [reflexivity|].
    destruct (isWellFormed s); [|reflexivity].
    destruct Hwf as [_ [x Hx]]; [reflexivity | discriminate].
Qed.

(** C1, as the code has it.  For every provider id [p] and every value
    [r] of [loginRedirect] for which [encodeURIComponent(r)] returns (the
    string of [r] has no surrogate outside a pair), [onLoginClicked(p)]
    assigns to [window.location.href] the string ['/.auth/login/' + p +
    '?post_login_redirect_uri=' + encodeURIComponent(r)]: the login path
    of the platform, then the redirect as a query parameter made of
    unreserved characters and percent escapes only.  For every other [r],
    [encodeURIComponent(r)] throws (a [URIError] for a surrogate outside a
    pair, a [TypeError] for a value that has no string) and
    [onLoginClicked(p)] throws the same error and assigns nothing. *)
Theorem onLoginClicked_location (p : jsstring) (w : World) :
  match encodeURIComponent (loginRedirect (this w)) with
  | Ok encoded =>
      onLoginClicked (VString p) w =
        (Ok tt,
         navigated (lit "/.auth/login/" ++ p ++ lit "?post_login_redirect_uri=" ++ encoded) w)
      /\ Forall url_safe encoded
      /\ exists s,
           ToString (loginRedirect (this w)) = Ok s /\ isWellFormed s = true
  | Throw e =>
      onLoginClicked (VString p) w = (Throw e, w)
      /\ ((e = TypeError /\ ToString (loginRedirect (this w)) = Throw TypeError)
          \/ (e = URIError
              /\ exists s,
                   ToString (loginRedirect (this w)) = Ok s
                   /\ isWellFormed s = false))
  end.
Proof.
  pose proof (encodeURIComponent_cases (loginRedirect (this w))) as Hcases.
  unfold onLoginClicked. unfold_M. simpl.
  destruct (encodeURIComponent (loginRedirect (this w))) as [encoded|e]; simpl.
  - split; [reflexivity | exact Hcases].
  - split; [reflexivity | exact Hcases].
Qed.

(** C2, as the code has it.  For every value [r] of [logoutRedirect] for
    which [encodeURIComponent(r)] returns (the string of [r] has no
    surrogate outside a pair), [onLogoutClicked()] assigns to
    [window.location.href] the string
    ['/.auth/logout?post_logout_redirect_uri=' + encodeURIComponent(r)];
    for every other [r], [encodeURIComponent(r)] throws (a [URIError] for
    a surrogate outside a pair, a [TypeError] for a value that has no
    string) and [onLogoutClicked()] throws the same error and assigns
    nothing.  The button the status branch renders for a signed-in user
    runs that same method on a click. *)
Theorem onLogoutClicked_location (personSvg : jsstring) (w : World) :
  match encodeURIComponent (logoutRedirect (this w)) with
  | Ok encoded =>
      onLogoutClicked w =
        (Ok tt, navigated (lit "/.auth/logout?post_logout_redirect_uri=" ++ encoded) w)
      /\ Forall url_safe encoded
      /\ exists s,
           ToString (logoutRedirect (this w)) = Ok s /\ isWellFormed s = true
  | Throw e =>
      onLogoutClicked w = (Throw e, w)
      /\ ((e = TypeError /\ ToString (logoutRedirect (this w)) = Throw TypeError)
          \/ (e = URIError
              /\ exists s,
                   ToString (logoutRedirect (this w)) = Ok s
                   /\ isWellFormed s = false))
  end
  /\ (exists t,
        renderStatus personSvg w = (Ok t, w)
        /\ listeners t =
             (if ToBoolean (_userDetails (this w)) then [ClickLogout] else [])
        /\ Forall (fun l => click l w = onLogoutClicked w) (listeners t)).
Proof.
  split.
  - pose proof (encodeURIComponent_cases (logoutRedirect (this w))) as Hcases.
    unfold onLogoutClicked. unfold_M.
    destruct (encodeURIComponent (logoutRedirect (this w))) as [encoded|e]; simpl.
    + split; [reflexivity | exact Hcases].
    + split; [reflexivity | exact Hcases].
  - eexists. split; [apply renderStatus_returns|].
    destruct (ToBoolean (_userDetails (this w))); simpl;
      (split; [reflexivity|]); repeat constructor.
Qed.

(** ** The three branches *)

Lemma strict_eq_string_true (v : value) (s : jsstring) :
  strict_eq_string v s = true <-> v = VString s.
Proof.
  destruct v; simpl; try (split; [discriminate | congruence]).
  rewrite bool_decide_eq_true. split; congruence.
Qed.

Lemma strict_eq_string_false (v : value) (s : jsstring) :
  strict_eq_string v s = false <-> v <> VString s.
Proof.
  rewrite <- strict_eq_string_true. destruct (strict_eq_string v s); split; congruence.
Qed.

Lemma renderLogin_branch (w w' : World) (t : template) :
  renderLogin w = (Ok t, w') -> branch_of t = Some LoginBranch.
Proof.
  unfold renderLogin, userDetails. unfold_M.
  repeat case_match; intros; simplify_eq; reflexivity.
Qed.

(** C3.  [render()] returns what [renderStatus] returns exactly when
    [type === 'status'], what [renderLogout] returns exactly when
    [type === 'logout'], and what [renderLogin] returns for every other
    value of [type]; the three are told apart by the root of the template
    they return. *)
Theorem render_dispatch (personSvg logoutSvg : jsstring) (w : World) :
  let t := type (this w) in
  (t = VString (lit "status") ->
   render personSvg logoutSvg w = renderStatus personSvg w)
  /\ (t = VString (lit "logout") ->
      render personSvg logoutSvg w = renderLogout logoutSvg w)
  /\ (t <> VString (lit "status") -> t <> VString (lit "logout") ->
      render personSvg logoutSvg w = renderLogin w)
  /\ match fst (render personSvg logoutSvg w) with
     | Ok tpl =>
         (branch_of tpl = Some StatusBranch <-> t = VString (lit "status"))
         /\ (branch_of tpl = Some LogoutBranch <-> t = VString (lit "logout"))
         /\ (branch_of tpl = Some LoginBranch <->
             t <> VString (lit "status") /\ t <> VString (lit "logout"))
     | Throw _ => t <> VString (lit "status") /\ t <> VString (lit "logout")
     end.
Proof.
  intros t. subst t. unfold render. unfold_M.
  destruct (strict_eq_string (type (this w)) (lit "status")) eqn:Hs.
  { apply strict_eq_string_true in Hs. rewrite Hs.
    rewrite renderStatus_returns. simpl.
    repeat split; intros; try reflexivity; try congruence; try discriminate.
    all: try (destruct H; congruence). }
  destruct (strict_eq_string (type (this w)) (lit "logout")) eqn:Hl.
  { apply strict_eq_string_true in Hl. apply strict_eq_string_false in Hs.
    rewrite Hl in *. simpl.
    repeat split; intros; try reflexivity; try congruence; try discriminate.
    all: try (destruct H; congruence). }
  apply strict_eq_string_false in Hs, Hl.
  split; [congruence|]. split; [congruence|]. split; [reflexivity|].
  destruct (renderLogin w) as [[tpl|e] w'] eqn:Hr; simpl; [|tauto].
  rewrite (renderLogin_branch _ _ _ Hr).
  repeat split; intros; try congruence; try discriminate; tauto.
Qed.

(** C4, as the code has it.  The login branch goes by the truthiness of
    [_userDetails]: for a truthy value [renderLogin()] returns the slot
    alone, with no button.  For a falsy one ([undefined], and also [null],
    [false], [0], [NaN] and the empty string) it reads [options.providers]:
    when [options] is neither [undefined] nor [null], [providers] is an
    array and no entry of it is [undefined] or [null], it returns the
    login section with one button per entry, in the order of the array,
    each button labelled and styled from the [label], [icon], [color] and
    [textColor] of its entry; in every other case it throws a [TypeError]
    and renders nothing. *)
Theorem renderLogin_by_truthiness (w : World) :
  (ToBoolean (_userDetails (this w)) = true ->
   renderLogin w = (Ok (Element "slot" [] []), w)
   /\ listeners (Element "slot" [] []) = [])
  /\ (ToBoolean (_userDetails (this w)) = false ->
      forall providers,
        renderable_providers (options (this w)) = Some providers ->
        renderLogin w =
          (Ok (Element "section" [Attr "class" "auth-login"]
                 [Items (login_button <$> providers)]), w)
        /\ listeners (Element "section" [Attr "class" "auth-login"]
                        [Items (login_button <$> providers)])
           = ClickLogin <$> providers)
  /\ (ToBoolean (_userDetails (this w)) = false ->
      renderable_providers (options (this w)) = None ->
      renderLogin w = (Throw TypeError, w))
  /\ (forall providers,
        renderable_providers (options (this w)) = Some providers <->
        is_nullish (options (this w)) = false
        /\ property (options (this w)) "providers" = VArray providers
        /\ Forall (fun p => is_nullish p = false) providers).
Proof.
  split; [|split; [|split]].
  - intros Ht. split; [apply renderLogin_truthy, Ht | reflexivity].
  - intros Hf providers Hr. split.
    + rewrite renderLogin_cases, Hf, Hr. reflexivity.
    + simpl. rewrite !app_nil_r. clear.
      induction providers as [|p rest IH]; [reflexivity|].
      simpl. f_equal. exact IH.
  - intros Hf Hr. rewrite renderLogin_cases, Hf, Hr. reflexivity.
  - intros providers. unfold renderable_providers.
    destruct (is_nullish (options (this w)));
      [split; [discriminate | intros (? & _); discriminate]|].
    destruct (property (options (this w)) "providers") as [| | | | |entries|];
      try (split; [discriminate | intros (_ & ? & _); discriminate]).
    destruct (forallb (fun p => negb (is_nullish p)) entries) eqn:Hall.
    + split.
      * intros [= <-]. split; [reflexivity|]. split; [reflexivity|].
        apply Forall_forall. intros p Hin.
        destruct (is_nullish p) eqn:Hp; [|reflexivity].
        assert (Exists (fun p => is_nullish p = true) entries) as Hex
          by (apply Exists_exists; eauto).
        apply some_nullish in Hex. congruence.
      * intros (_ & [= <-] & _). reflexivity.
    + split; [discriminate|]. intros (_ & [= <-] & Hforall).
      apply some_nullish in Hall. apply Exists_exists in Hall as (p & Hin & Hp).
      rewrite Forall_forall in Hforall. rewrite (Hforall p Hin) in Hp. discriminate.
Qed.

(** C10, as the code has it.  [renderStatus()] returns the status section
    with the person icon, followed by the text ['Logged in as ...'] and the
    logout button exactly when [_userDetails] is truthy; for a falsy value
    ([undefined], and also [null], [false], [0], [NaN] and the empty
    string) the icon is all it renders. *)
Theorem renderStatus_by_truthiness (personSvg : jsstring) (w : World) :
  renderStatus personSvg w =
    (Ok (status_section personSvg
           (if ToBoolean (_userDetails (this w))
            then signed_in (_userDetails (this w))
            else Nothing)), w)
  /\ (listeners (status_section personSvg
                   (if ToBoolean (_userDetails (this w))
                    then signed_in (_userDetails (this w))
                    else Nothing)) = [ClickLogout]
      <-> ToBoolean (_userDetails (this w)) = true).
Proof.
  split; [apply renderStatus_returns|].
  destruct (ToBoolean (_userDetails (this w))); simpl; split; congruence.
Qed.

(** ** The life of an instance *)

Section Life.

Variables personSvg logoutSvg microsoftSvg githubSvg : jsstring.

Local Abbreviation step := (step personSvg logoutSvg).
Local Abbreviation run := (run personSvg logoutSvg).
Local Abbreviation created := (created microsoftSvg githubSvg).

Lemma created_world (page : jsstring) :
  created page =
    {| this := fields microsoftSvg githubSvg; location_href := page;
       requests := [lit "/.auth/me"]; userInfo := Pending; unhandled := [] |}.
Proof. reflexivity. Qed.

Lemma GetOptional_returns (v : value) (k : string) :
  GetOptional v (lit k) = Ok (if is_nullish v then VUndefined else property v k).
Proof. destruct v; reflexivity. Qed.

(** The answer to a pending request, case by case. *)
Lemma step_answer_json (w : World) (payload : value) :
  userInfo w = Pending ->
  step w (Answer (Json payload)) =
    let v := if is_nullish payload then VUndefined else property payload "clientPrincipal" in
    {| this := with_loaded true (with_userDetails v (this w));
       location_href := location_href w; requests := requests w;
       userInfo := Fulfilled v; unhandled := unhandled w ++ [] |}.
Proof.
  intros Hp. unfold step, happen, answered. rewrite Hp. simpl.
  rewrite GetOptional_returns. reflexivity.
Qed.

Lemma step_answer_rejected (w : World) (a : answer) (e : exn) :
  userInfo w = Pending ->
  getUserInfo_resumed a = Throw e ->
  step w (Answer a) =
    {| this := this w; location_href := location_href w; requests := requests w;
       userInfo := Rejected e; unhandled := unhandled w ++ [e] |}.
Proof.
  intros Hp He. unfold step, happen, answered. rewrite Hp, He. reflexivity.
Qed.

Lemma step_answer_settled (w : World) (a : answer) :
  settled w = true -> step w (Answer a) = w.
Proof.
  unfold settled, step, happen, answered. destruct (userInfo w); [discriminate| |]; reflexivity.
Qed.

(** No event sends a request. *)
Lemma step_requests (w : World) (ev : event) : requests (step w ev) = requests w.
Proof.
  unfold step. destruct ev as [a|v|v|v|v|op|l]; simpl; try reflexivity.
  - unfold answered. destruct (userInfo w); try reflexivity.
    destruct (getUserInfo_resumed a); reflexivity.
  - destruct (perform_navigates personSvg logoutSvg op w) as [url Hu].
    unfold_M. destruct (perform personSvg logoutSvg op w) as [[r|e] w'];
      simpl in *; subst w'; reflexivity.
  - destruct (click_navigates l w) as [url ->]. reflexivity.
Qed.

(** Once the promise has settled, no event changes it, the state it
    wrote, or the rejections left unhandled. *)
Lemma step_settled (w : World) (ev : event) :
  settled w = true ->
  userInfo (step w ev) = userInfo w
  /\ _userDetails (this (step w ev)) = _userDetails (this w)
  /\ loaded (this (step w ev)) = loaded (this w)
  /\ unhandled (step w ev) = unhandled w.
Proof.
  intros Hs. destruct ev as [a|v|v|v|v|op|l].
  - rewrite step_answer_settled by exact Hs. auto.
  - unfold step; simpl; auto.
  - unfold step; simpl; auto.
  - unfold step; simpl; auto.
  - unfold step; simpl; auto.
  - unfold step. simpl. destruct (perform_navigates personSvg logoutSvg op w) as [url Hu].
    unfold_M. destruct (perform personSvg logoutSvg op w) as [[r|e] w'];
      simpl in *; subst w'; auto.
  - unfold step. simpl. destruct (click_navigates l w) as [url ->]. auto.
Qed.

Lemma run_requests (w : World) (evs : list event) : requests (run w evs) = requests w.
Proof.
  revert w. induction evs as [|ev evs IH]; intros w; [reflexivity|].
  simpl. rewrite IH. apply step_requests.
Qed.

Lemma run_settled (w : World) (evs : list event) :
  settled w = true ->
  userInfo (run w evs) = userInfo w
  /\ _userDetails (this (run w evs)) = _userDetails (this w)
  /\ loaded (this (run w evs)) = loaded (this w)
  /\ unhandled (run w evs) = unhandled w.
Proof.
  revert w. induction evs as [|ev evs IH]; intros w Hs; [auto|].
  simpl. destruct (step_settled w ev Hs) as (Hu & Hd & Hl & Hr).
  destruct (IH (step w ev)) as (Hu' & Hd' & Hl' & Hr').
  { unfold settled in *. rewrite Hu. exact Hs. }
  repeat split; congruence.
Qed.

(** C5.  The constructor sends one request, to ['/.auth/me'], and leaves
    its promise pending; when the endpoint answers a pending request with
    the JSON payload [p], [_userDetails] becomes [p?.clientPrincipal], the
    value found in the payload as it is, and [loaded] becomes [true]; both
    stay so whatever happens afterwards. *)
Theorem user_details_stored
    (page : jsstring) (w : World) (payload : value) (after : list event) :
  userInfo w = Pending ->
  let w' := run (step w (Answer (Json payload))) after in
  requests (created page) = [lit "/.auth/me"]
  /\ userInfo (created page) = Pending
  /\ exists v,
       GetOptional payload (lit "clientPrincipal") = Ok v
       /\ _userDetails (this w') = v
       /\ loaded (this w') = true
       /\ (is_nullish payload = true -> v = VUndefined)
       /\ (is_nullish payload = false ->
           v = default VUndefined (own_enumerable payload !! lit "clientPrincipal")).
Proof.
  intros Hp w'. split; [reflexivity|]. split; [reflexivity|].
  exists (if is_nullish payload then VUndefined else property payload "clientPrincipal").
  split; [apply GetOptional_returns|].
  subst w'. rewrite (step_answer_json _ _ Hp).
  match goal with |- context [run ?x after] => destruct (run_settled x after eq_refl) as (_ & -> & -> & _) end.
  simpl. repeat split; intros H; rewrite H; reflexivity.
Qed.

(** C6, as the code has it.  The component sends the request to
    ['/.auth/me'] once, from its constructor: whatever happens to an
    instance afterwards, that request remains the only one. *)
Theorem single_fetch (page : jsstring) (evs : list event) :
  requests (run (created page) evs) = [lit "/.auth/me"].
Proof. rewrite run_requests. reflexivity. Qed.

(** C7.  No member of the component writes [_userDetails]: [render], the
    three branches, [onLoginClicked], [onLogoutClicked] and the getter
    leave the stored value as it is, the getter returns that value, and
    once the promise of the constructor has settled the value stays the
    same through every later event. *)
Theorem user_details_frame (w : World) (op : operation) :
  _userDetails (this (snd (perform personSvg logoutSvg op w))) = _userDetails (this w)
  /\ perform personSvg logoutSvg GetUserDetails w = (Ok (RValue (_userDetails (this w))), w)
  /\ (forall l, _userDetails (this (snd (click l w))) = _userDetails (this w))
  /\ (forall evs,
        settled w = true ->
        _userDetails (this (run w evs)) = _userDetails (this w)).
Proof.
  split; [|split; [|split]].
  - destruct (perform_navigates personSvg logoutSvg op w) as [url ->]. reflexivity.
  - reflexivity.
  - intros l. destruct (click_navigates l w) as [url ->]. reflexivity.
  - intros evs Hs. apply (run_settled w evs Hs).
Qed.



End Life.

(** ** The converter of [options] *)

Section Converter.

Variables microsoftSvg githubSvg : jsstring.
Variable StringToNumber : jsstring -> jsstring.

Local Abbreviation converter := (converter microsoftSvg githubSvg StringToNumber).
Local Abbreviation defaultOptions := (defaultOptions microsoftSvg githubSvg).
Local Abbreviation defaultProviders := (defaultProviders microsoftSvg githubSvg).

Lemma lookup_spread (later earlier : gmap jsstring value) (k : jsstring) :
  (later ∪ earlier) !! k =
    match later !! k with
    | Some v => Some v
    | None => earlier !! k
    end.
Proof.
  rewrite lookup_union. destruct (later !! k), (earlier !! k); reflexivity.
Qed.

Lemma converter_absent : converter None = Ok defaultOptions.
Proof.
  reflexivity.
Qed.

(** C8.  The converter merges the parsed attribute over the defaults one
    top-level property at a time: [value || '{}'] is the attribute text,
    or ['{}'] for an absent ([null]) or empty attribute; the options are
    [{ ...defaultOptions, ...JSON.parse(value || '{}') }], so each
    top-level property is the parsed one when there is one, whole, and the
    default one otherwise (and where [JSON.parse] throws, the converter
    throws the same); an absent or empty attribute gives [defaultOptions]
    itself; and a text that gives [strings] with [loginButton] only
    replaces the whole of [strings], whose [logoutButton] is then
    [undefined], while [providers] keeps its default. *)
Theorem converter_shallow_merge (attribute : option jsstring) :
  or_empty_object attribute =
    match attribute with
    | None | Some [] => lit "{}"
    | Some text => text
    end
  /\ match JSON_parse StringToNumber (or_empty_object attribute) with
     | Ok parsed =>
         exists merged,
           converter attribute = Ok (VObject merged)
           /\ forall k,
                merged !! k =
                  match own_enumerable parsed !! k with
                  | Some v => Some v
                  | None => own_enumerable defaultOptions !! k
                  end
     | Throw e => converter attribute = Throw e
     end
  /\ converter None = Ok defaultOptions
  /\ converter (Some []) = Ok defaultOptions
  /\ exists o,
       converter (Some (json "{'strings':{'loginButton':'Sign in'}}")) = Ok o
       /\ property o "strings"
          = VObject {[ lit "loginButton" := VString (lit "Sign in") ]}
       /\ property (property o "strings") "logoutButton" = VUndefined
       /\ property (property defaultOptions "strings") "logoutButton"
          = VString (lit "Log out")
       /\ property o "providers" = VArray defaultProviders.
Proof.
  split; [|split; [|split; [|split]]].
  - destruct attribute as [[|c text]|]; reflexivity.
  - unfold converter, Auth.converter.
    destruct (JSON_parse StringToNumber (or_empty_object attribute)) as [parsed|e];
      simpl; [|reflexivity].
    eexists. split; [reflexivity|]. intros k. apply lookup_spread.
  - apply converter_absent.
  - apply converter_absent.
  - eexists. split; [vm_compute; reflexivity|].
    repeat split; vm_compute; reflexivity.
Qed.

End Converter.

(** ** The worked instances *)

Example created_fresh :
  fresh = {| this := fields svg svg; location_href := page;
             requests := [lit "/.auth/me"]; userInfo := Pending; unhandled := [] |}.
Proof. reflexivity. Qed.

(** C4 with 'defined' in place of 'truthy' fails: with the payload
    [{"clientPrincipal": null}] the stored [_userDetails] is [null], which
    is not [undefined], and the login branch still renders the seven
    provider buttons instead of the slot; so does a principal [false]. *)
Lemma renderLogin_defined_not_suppressed :
  _userDetails (this anonymous) = VNull
  /\ _userDetails (this anonymous) <> VUndefined
  /\ renderLogin anonymous =
       (Ok (Element "section" [Attr "class" "auth-login"]
              [Items (login_button <$> defaultProviders svg svg)]), anonymous)
  /\ fst (renderLogin anonymous) <> Ok (Element "slot" [] [])
  /\ let w := step svg svg fresh
                (Answer (Json (VObject {[ lit "clientPrincipal" := VBool false ]}))) in
     _userDetails (this w) = VBool false
     /\ fst (renderLogin w) <> Ok (Element "slot" [] []).
Proof.
  split; [reflexivity|]. split; [discriminate|].
  split; [vm_compute; reflexivity|].
  split; [vm_compute; discriminate|].
  split; [reflexivity | vm_compute; discriminate].
Qed.

(** C10 with 'defined' in place of 'truthy' fails: with the payload
    [{"clientPrincipal": null}] the stored [_userDetails] is [null], which
    is not [undefined], and the status branch renders the icon alone; so
    does a principal [false]. *)
Lemma renderStatus_defined_not_shown :
  _userDetails (this anonymous) = VNull
  /\ _userDetails (this anonymous) <> VUndefined
  /\ renderStatus svg anonymous = (Ok (status_section svg Nothing), anonymous)
  /\ let w := step svg svg fresh
                (Answer (Json (VObject {[ lit "clientPrincipal" := VBool false ]}))) in
     _userDetails (this w) = VBool false
     /\ renderStatus svg w = (Ok (status_section svg Nothing), w).
Proof.
  split; [reflexivity|]. split; [discriminate|].
  split; [vm_compute; reflexivity|].
  split; vm_compute; reflexivity.
Qed.

(** C6 with repeated requests fails: no instance, page and sequence of
    events gives a second request. *)
Lemma no_second_fetch :
  ~ exists personSvg logoutSvg microsoftSvg githubSvg page evs,
      (2 <= length (requests (run personSvg logoutSvg
                                (created microsoftSvg githubSvg page) evs)))%nat.
Proof.
  intros (personSvg & logoutSvg & microsoftSvg & githubSvg & page & evs & H).
  rewrite run_requests in H. simpl in H. lia.
Qed.

(** C1 for every value of [loginRedirect] fails: with a redirect that
    holds a surrogate outside a pair, [encodeURIComponent] throws its
    [URIError], [onLoginClicked] throws it too and the location stays the
    one of the page; with a redirect that has no string it is the
    [TypeError] of the conversion. *)
Lemma onLoginClicked_not_every_redirect :
  (let w := step svg svg fresh (SetLoginRedirect (VString [0xD83D])) in
   loginRedirect (this w) = VString [0xD83D]
   /\ onLoginClicked (VString (lit "github")) w = (Throw URIError, w)
   /\ location_href (snd (onLoginClicked (VString (lit "github")) w)) = page)
  /\ (let w := step svg svg fresh
                 (SetLoginRedirect (VObject {[ lit "toString" := VNumber (lit "1") ]})) in
      onLoginClicked (VString (lit "github")) w = (Throw TypeError, w)
      /\ location_href (snd (onLoginClicked (VString (lit "github")) w)) = page).
Proof. repeat split; vm_compute; reflexivity. Qed.

(** C2 for every value of [logoutRedirect] fails: with a redirect that
    holds a surrogate outside a pair, [encodeURIComponent] throws its
    [URIError], [onLogoutClicked] throws it too and the location stays the
    one of the page; with a redirect that has no string it is the
    [TypeError] of the conversion. *)
Lemma onLogoutClicked_not_every_redirect :
  (let w := step svg svg fresh (SetLogoutRedirect (VString [0xDE00])) in
   logoutRedirect (this w) = VString [0xDE00]
   /\ onLogoutClicked w = (Throw URIError, w)
   /\ location_href (snd (onLogoutClicked w)) = page)
  /\ (let w := step svg svg fresh
                 (SetLogoutRedirect (VObject {[ lit "toString" := VNumber (lit "1") ]})) in
      onLogoutClicked w = (Throw TypeError, w)
      /\ location_href (snd (onLogoutClicked w)) = page).
Proof. repeat split; vm_compute; reflexivity. Qed.

(** [render_dispatch] at an instance whose [type] was set to ['status'],
    to ['logout'] and to a string outside the declared union. *)
Lemma render_dispatch_witness :
  (let w := step svg svg fresh (SetType (VString (lit "status"))) in
   render svg svg w = renderStatus svg w)
  /\ (let w := step svg svg fresh (SetType (VString (lit "logout"))) in
      render svg svg w = renderLogout svg w)
  /\ (let w := step svg svg fresh (SetType (VString (lit "signin"))) in
      render svg svg w = renderLogin w).
Proof.
  split; [|split]; intros w.
  - apply (render_dispatch svg svg w). reflexivity.
  - apply (render_dispatch svg svg w). reflexivity.
  - apply (render_dispatch svg svg w); discriminate.
Defined.

(** [renderLogin_by_truthiness] at a signed-in instance and at a fresh one
    with the default options. *)
Lemma renderLogin_by_truthiness_witness :
  renderLogin signed_in_world = (Ok (Element "slot" [] []), signed_in_world)
  /\ renderLogin fresh =
       (Ok (Element "section" [Attr "class" "auth-login"]
              [Items (login_button <$> defaultProviders svg svg)]), fresh).
Proof.
  split.
  - apply (renderLogin_by_truthiness signed_in_world). reflexivity.
  - apply (renderLogin_by_truthiness fresh); reflexivity.
Defined.

(** [user_details_stored] at a fresh instance answered with a signed-in
    user, then rendered, clicked and answered once more. *)
Lemma user_details_stored_witness :
  userInfo fresh = Pending
  /\ let w' := run svg svg signed_in_world
                 [Call Render; Click ClickLogout; Answer (Json anonymous_payload)] in
     _userDetails (this w') = principal /\ loaded (this w') = true.
Proof.
  split; [reflexivity|]. intros w'.
  destruct (user_details_stored svg svg svg svg page fresh signed_in_payload
              [Call Render; Click ClickLogout; Answer (Json anonymous_payload)] eq_refl)
    as (_ & _ & v & _ & Hd & Hl & _ & Hv).
  split; [|exact Hl].
  etransitivity; [exact Hd|]. etransitivity; [exact (Hv eq_refl)|]. reflexivity.
Defined.

(** [user_details_frame] at a signed-in instance. *)
Lemma user_details_frame_witness :
  settled signed_in_world = true
  /\ _userDetails
       (this (run svg svg signed_in_world
                [Call (OnLoginClicked (VString (lit "github")));
                 SetOptions VNull; Call Render;
                 Answer (Json anonymous_payload)])) = principal.
Proof.
  split; [reflexivity|].
  etransitivity;
    [apply (user_details_frame svg svg signed_in_world Render); reflexivity
    |reflexivity].
Defined.


(** ** More on the members *)

Section MoreMembers.

Variables personSvg logoutSvg : jsstring.

Lemma render_cases (w : World) :
  render personSvg logoutSvg w =
    (if strict_eq_string (type (this w)) (lit "status") then
       Ok (status_section personSvg
             (if ToBoolean (_userDetails (this w))
              then signed_in (_userDetails (this w)) else Nothing))
     else if strict_eq_string (type (this w)) (lit "logout") then
       Ok (logout_button logoutSvg)
     else if ToBoolean (_userDetails (this w)) then Ok (Element "slot" [] [])
     else
       match renderable_providers (options (this w)) with
       | Some entries => Ok (login_section entries)
       | None => Throw TypeError
       end, w).
Proof.
  unfold render. unfold_M.
  destruct (strict_eq_string (type (this w)) (lit "status"));
    [apply renderStatus_returns|].
  destruct (strict_eq_string (type (this w)) (lit "logout")); [reflexivity|].
  apply renderLogin_cases.
Qed.

(** The general form of the two redirects, for any argument. *)
Lemma onLoginClicked_cases (provider : value) (w : World) :
  onLoginClicked provider w =
    match ToString provider with
    | Throw e => (Throw e, w)
    | Ok id =>
        match encodeURIComponent (loginRedirect (this w)) with
        | Ok encoded =>
            (Ok tt,
             navigated (lit "/.auth/login/" ++ id
                          ++ lit "?post_login_redirect_uri=" ++ encoded) w)
        | Throw e => (Throw e, w)
        end
    end.
Proof.
  unfold onLoginClicked. unfold_M.
  destruct (ToString provider); [|reflexivity].
  destruct (encodeURIComponent (loginRedirect (this w))); reflexivity.
Qed.

Lemma onLogoutClicked_cases (w : World) :
  onLogoutClicked w =
    match encodeURIComponent (logoutRedirect (this w)) with
    | Ok encoded =>
        (Ok tt, navigated (lit "/.auth/logout?post_logout_redirect_uri=" ++ encoded) w)
    | Throw e => (Throw e, w)
    end.
Proof.
  unfold onLogoutClicked. unfold_M.
  destruct (encodeURIComponent (logoutRedirect (this w))); reflexivity.
Qed.

(** X1.  Rendering and the getter have no effect: [render], the three
    branches and [get userDetails] leave the component, the location, the
    requests and the promise as they found them, also when the login
    branch throws.  The two redirect methods write
    [window.location.href] and nothing else, and a redirect that throws
    writes nothing at all. *)
Theorem members_effects (w : World) (provider : value) :
  snd (render personSvg logoutSvg w) = w
  /\ snd (renderStatus personSvg w) = w
  /\ snd (renderLogin w) = w
  /\ snd (renderLogout logoutSvg w) = w
  /\ userDetails w = (Ok (_userDetails (this w)), w)
  /\ (exists url, snd (onLoginClicked provider w) = navigated url w)
  /\ (exists url, snd (onLogoutClicked w) = navigated url w)
  /\ match fst (onLoginClicked provider w) with
     | Ok _ => True
     | Throw _ => snd (onLoginClicked provider w) = w
     end
  /\ match fst (onLogoutClicked w) with
     | Ok _ => True
     | Throw _ => snd (onLogoutClicked w) = w
     end.
Proof.
  split; [apply render_reads|]. split; [apply renderStatus_reads|].
  split; [apply renderLogin_reads|]. split; [apply renderLogout_reads|].
  split; [reflexivity|].
  split; [apply onLoginClicked_navigates|].
  split; [apply onLogoutClicked_navigates|].
  rewrite onLoginClicked_cases, onLogoutClicked_cases.
  split.
  - destruct (ToString provider); [|reflexivity].
    destruct (encodeURIComponent (loginRedirect (this w))); simpl; trivial.
  - destruct (encodeURIComponent (logoutRedirect (this w))); simpl; trivial.
Qed.

(** X2.  What the login branch does with [options]: for a falsy
    [_userDetails], [renderLogin()] returns the login section when
    [options] is neither [undefined] nor [null], [options.providers] is an
    array and no entry of it is [undefined] or [null] (an empty array gives
    a section without buttons), and throws a [TypeError] in every other
    case; for a truthy [_userDetails] it returns the slot and never reads
    [options]. *)
Theorem renderLogin_returns_or_throws (w : World) :
  renderLogin w =
    (if ToBoolean (_userDetails (this w)) then Ok (Element "slot" [] [])
     else
       match renderable_providers (options (this w)) with
       | Some entries => Ok (login_section entries)
       | None => Throw TypeError
       end, w)
  /\ (renderable_providers (options (this w)) = None <->
      is_nullish (options (this w)) = true
      \/ (forall entries, property (options (this w)) "providers" <> VArray entries)
      \/ (exists entries,
            property (options (this w)) "providers" = VArray entries
            /\ Exists (fun p => is_nullish p = true) entries))
  /\ login_section [] = Element "section" [Attr "class" "auth-login"] [Items []].
Proof.
  split; [apply renderLogin_cases|]. split; [|reflexivity].
  unfold renderable_providers.
  destruct (is_nullish (options (this w))); [split; auto|].
  destruct (property (options (this w)) "providers") as [| | | | |entries|] eqn:Hp;
    try (split; [intros _; right; left; intros entries'; discriminate | reflexivity]).
  destruct (forallb (fun p => negb (is_nullish p)) entries) eqn:Hall.
  - split; [discriminate|]. intros [H|[H|(entries' & [= <-] & Hex)]].
    + discriminate.
    + destruct (H entries). reflexivity.
    + apply some_nullish in Hex. congruence.
  - split; [|reflexivity]. intros _. right. right. exists entries.
    split; [reflexivity | apply some_nullish, Hall].
Qed.

End MoreMembers.

Section MoreRendering.

Variables personSvg logoutSvg microsoftSvg githubSvg : jsstring.

Local Abbreviation render := (render personSvg logoutSvg).
Local Abbreviation step := (step personSvg logoutSvg).
Local Abbreviation run := (run personSvg logoutSvg).
Local Abbreviation created := (created microsoftSvg githubSvg).

(** X3.  [render()] can only throw a [TypeError], and throws exactly when
    it is on the login branch ([type] neither ['status'] nor ['logout']),
    [_userDetails] is falsy and [options.providers] cannot be rendered;
    the status and logout branches, and the login branch of a signed-in
    user, return whatever [options] holds. *)
Theorem render_throws_iff (w : World) :
  ((exists e, fst (render w) = Throw e) <->
   type (this w) <> VString (lit "status")
   /\ type (this w) <> VString (lit "logout")
   /\ ToBoolean (_userDetails (this w)) = false
   /\ renderable_providers (options (this w)) = None)
  /\ match fst (render w) with
     | Ok _ => True
     | Throw e => e = TypeError
     end.
Proof.
  rewrite render_cases. simpl.
  destruct (strict_eq_string (type (this w)) (lit "status")) eqn:Hs.
  { apply strict_eq_string_true in Hs.
    split; [split; [intros [e He]; discriminate | tauto] | exact I]. }
  destruct (strict_eq_string (type (this w)) (lit "logout")) eqn:Hl.
  { apply strict_eq_string_true in Hl.
    split; [split; [intros [e He]; discriminate | tauto] | exact I]. }
  apply strict_eq_string_false in Hs, Hl.
  destruct (ToBoolean (_userDetails (this w))).
  { split; [split; [intros [e He]; discriminate | intros (_ & _ & ? & _); discriminate]
           | exact I]. }
  destruct (renderable_providers (options (this w))).
  - split; [split; [intros [e He]; discriminate | intros (_ & _ & _ & ?); discriminate]
           | exact I].
  - split; [split; eauto | reflexivity].
Qed.

(** X4.  What [render()] returns depends on three fields only: [type],
    [_userDetails] and [options].  It never consults [loaded], the two
    redirects, the location or the state of the request, so an instance
    still waiting for the endpoint renders like an anonymous one. *)
Theorem render_reads_three_fields (w1 w2 : World) :
  type (this w1) = type (this w2) ->
  _userDetails (this w1) = _userDetails (this w2) ->
  options (this w1) = options (this w2) ->
  fst (render w1) = fst (render w2).
Proof.
  intros Ht Hd Ho. rewrite !render_cases. simpl. rewrite Ht, Hd, Ho. reflexivity.
Qed.

Lemma listeners_login_section (entries : list value) :
  listeners (login_section entries) = ClickLogin <$> entries.
Proof.
  unfold login_section. simpl. rewrite !app_nil_r.
  induction entries as [|p rest IH]; [reflexivity|]. simpl. f_equal. exact IH.
Qed.

Lemma renderable_not_nullish (opts : value) (entries : list value) (i : nat) (p : value) :
  renderable_providers opts = Some entries ->
  entries !! i = Some p ->
  is_nullish p = false.
Proof.
  unfold renderable_providers. intros Hr Hi.
  destruct (is_nullish opts); [discriminate|].
  destruct (property opts "providers"); try discriminate.
  destruct (forallb (fun p => negb (is_nullish p)) elements) eqn:Hall; [|discriminate].
  injection Hr as <-.
  rewrite forallb_forall in Hall.
  specialize (Hall p). destruct (is_nullish p); [|reflexivity].
  discriminate Hall. apply list_elem_of_In. eapply list_elem_of_lookup_2. exact Hi.
Qed.

(** X5.  Each rendered login button leads to its own provider: for a falsy
    [_userDetails] and renderable [options.providers], the login section
    binds one listener per entry, in order, and a click on the button of
    the entry [p] reads [p.id], converts it to a string and assigns
    ['/.auth/login/' + p.id + '?post_login_redirect_uri=' +
    encodeURIComponent(loginRedirect)] to [window.location.href].  The id
    is read at the click and is not escaped; an entry without [id] leads
    to ['/.auth/login/undefined'].  Where the id has no string (an object
    with an own [toString]) the click throws a [TypeError], and where
    [encodeURIComponent] throws the click throws the same; in both cases
    nothing is assigned. *)
Theorem login_button_click (w : World) (entries : list value) (i : nat) (p : value) :
  ToBoolean (_userDetails (this w)) = false ->
  renderable_providers (options (this w)) = Some entries ->
  entries !! i = Some p ->
  exists t,
    renderLogin w = (Ok t, w)
    /\ length (listeners t) = length entries
    /\ listeners t !! i = Some (ClickLogin p)
    /\ click (ClickLogin p) w =
         match ToString (property p "id") with
         | Throw e => (Throw e, w)
         | Ok id =>
             match encodeURIComponent (loginRedirect (this w)) with
             | Ok encoded =>
                 (Ok tt,
                  navigated (lit "/.auth/login/" ++ id
                               ++ lit "?post_login_redirect_uri=" ++ encoded) w)
             | Throw e => (Throw e, w)
             end
         end
    /\ (own_enumerable p !! lit "id" = None ->
        ToString (property p "id") = Ok (lit "undefined"))
    /\ (forall properties,
          property p "id" = VObject properties ->
          is_Some (properties !! lit "toString") ->
          click (ClickLogin p) w = (Throw TypeError, w)).
Proof.
  intros Hf Hr Hi. exists (login_section entries).
  split; [rewrite renderLogin_cases, Hf, Hr; reflexivity|].
  rewrite listeners_login_section.
  split; [apply length_fmap|]. split; [rewrite list_lookup_fmap, Hi; reflexivity|].
  assert (click (ClickLogin p) w = onLoginClicked (property p "id") w) as Hclick.
  { simpl. unfold_M.
    rewrite (Get_not_nullish p "id" (renderable_not_nullish _ _ _ _ Hr Hi)).
    reflexivity. }
  split; [rewrite Hclick; apply onLoginClicked_cases|]. split.
  - intros Hnone. unfold property. rewrite Hnone. reflexivity.
  - intros properties Hid [v Hv]. rewrite Hclick, onLoginClicked_cases, Hid.
    unfold ToString. simpl. rewrite Hv. reflexivity.
Qed.

(** No event but the answer of the endpoint touches the promise or what
    the callback of the constructor writes. *)
Lemma step_quiet (w : World) (ev : event) :
  (forall a, ev <> Answer a) ->
  userInfo (step w ev) = userInfo w
  /\ _userDetails (this (step w ev)) = _userDetails (this w)
  /\ loaded (this (step w ev)) = loaded (this w)
  /\ unhandled (step w ev) = unhandled w.
Proof.
  intros Hq. destruct ev as [a|v|v|v|v|op|l].
  - destruct (Hq a). reflexivity.
  - unfold Auth.step; simpl; auto.
  - unfold Auth.step; simpl; auto.
  - unfold Auth.step; simpl; auto.
  - unfold Auth.step; simpl; auto.
  - unfold Auth.step. simpl.
    destruct (perform_navigates personSvg logoutSvg op w) as [url Hu].
    unfold_M. destruct (perform personSvg logoutSvg op w) as [[r|e] w'];
      simpl in *; subst w'; auto.
  - unfold Auth.step. simpl. destruct (click_navigates l w) as [url ->]. auto.
Qed.

Lemma getUserInfo_resumed_json (payload : value) :
  getUserInfo_resumed (Json payload) =
    Ok (if is_nullish payload then VUndefined else property payload "clientPrincipal").
Proof. destruct payload; reflexivity. Qed.

Lemma step_consistent (w : World) (ev : event) :
  consistent w -> consistent (step w ev).
Proof.
  intros [Hreq Hinv]. split; [rewrite (step_requests personSvg logoutSvg); exact Hreq|].
  destruct (userInfo w) as [|v|e] eqn:Hu.
  - destruct ev as [a|v|v|v|v|op|l].
    + destruct Hinv as (Hd & Hl & Hh).
      destruct (getUserInfo_resumed a) as [v|e] eqn:Ha.
      * destruct a as [reason|reason|payload]; try discriminate.
        rewrite (step_answer_json _ _ _ _ Hu). cbv zeta. simpl.
        rewrite getUserInfo_resumed_json in Ha. injection Ha as <-.
        rewrite Hh. auto.
      * rewrite (step_answer_rejected _ _ _ _ _ Hu Ha). simpl. rewrite Hh. auto.
    + destruct (step_quiet w (SetOptions v)) as (-> & -> & -> & ->);
        [intros a; discriminate|]. rewrite Hu. exact Hinv.
    + destruct (step_quiet w (SetType v)) as (-> & -> & -> & ->);
        [intros a; discriminate|]. rewrite Hu. exact Hinv.
    + destruct (step_quiet w (SetLoginRedirect v)) as (-> & -> & -> & ->);
        [intros a; discriminate|]. rewrite Hu. exact Hinv.
    + destruct (step_quiet w (SetLogoutRedirect v)) as (-> & -> & -> & ->);
        [intros a; discriminate|]. rewrite Hu. exact Hinv.
    + destruct (step_quiet w (Call op)) as (-> & -> & -> & ->);
        [intros a; discriminate|]. rewrite Hu. exact Hinv.
    + destruct (step_quiet w (Click l)) as (-> & -> & -> & ->);
        [intros a; discriminate|]. rewrite Hu. exact Hinv.
  - destruct (step_settled personSvg logoutSvg w ev) as (-> & -> & -> & ->);
      [unfold settled; rewrite Hu; reflexivity|]. rewrite Hu. exact Hinv.
  - destruct (step_settled personSvg logoutSvg w ev) as (-> & -> & -> & ->);
      [unfold settled; rewrite Hu; reflexivity|]. rewrite Hu. exact Hinv.
Qed.

Lemma run_consistent (w : World) (evs : list event) :
  consistent w -> consistent (run w evs).
Proof.
  revert w. induction evs as [|ev evs IH]; intros w Hw; [exact Hw|].
  simpl. apply IH, step_consistent, Hw.
Qed.

(** X6.  An invariant of every instance, whatever happens to it: one
    request was sent; while its promise is pending or after it was
    rejected, [_userDetails] is [undefined] and [loaded] is [false]; after
    it was fulfilled with [v], [_userDetails] is [v] and [loaded] is
    [true]; at most one rejection is left unhandled, the one of that
    promise.  So [loaded] tells whether [_userDetails] was written, and a
    value other than [undefined] is never stored while [loaded] is
    [false]. *)
Theorem instance_consistent (page : jsstring) (evs : list event) :
  let w := run (created page) evs in
  consistent w
  /\ (loaded (this w) = true <-> exists v, userInfo w = Fulfilled v)
  /\ (loaded (this w) = false -> _userDetails (this w) = VUndefined)
  /\ (length (unhandled w) <= 1)%nat.
Proof.
  intros w.
  assert (consistent w) as Hw.
  { apply run_consistent. split; [reflexivity|]. simpl. auto. }
  split; [exact Hw|]. destruct Hw as [_ Hinv].
  destruct (userInfo w) as [|v|e]; destruct Hinv as (Hd & Hl & Hh);
    rewrite Hl, Hh; simpl.
  - split; [split; [discriminate | intros [v Hv]; discriminate]|]. split; [auto | lia].
  - split; [split; eauto|]. split; [discriminate | lia].
  - split; [split; [discriminate | intros [v Hv]; discriminate]|]. split; [auto | lia].
Qed.

Lemma step_location (w : World) (ev : event) :
  redirects ev = false -> location_href (step w ev) = location_href w.
Proof.
  intros Hr. destruct ev as [a|v|v|v|v|op|l]; try discriminate; try reflexivity.
  - unfold Auth.step. simpl. unfold answered.
    destruct (userInfo w); try reflexivity.
    destruct (getUserInfo_resumed a); reflexivity.
  - assert (reads_only (perform personSvg logoutSvg op)) as Hop.
    { destruct op; try discriminate; simpl;
        (apply reads_only_bind; [|intros; apply reads_only_ret]).
      - apply render_reads.
      - apply renderStatus_reads.
      - apply renderLogin_reads.
      - apply renderLogout_reads.
      - apply reads_only_gets. }
    unfold Auth.step. simpl.
    rewrite (reads_only_bind _ _ Hop (fun _ => reads_only_ret tt) w). reflexivity.
Qed.

(** X7.  The component never navigates by itself: as long as neither
    redirect method is called and no rendered button is clicked, the
    location stays the one of the page, whatever the endpoint answers,
    whatever the host assigns and however often the component renders. *)
Theorem no_navigation_without_redirect (page : jsstring) (evs : list event) :
  Forall (fun ev => redirects ev = false) evs ->
  location_href (run (created page) evs) = page.
Proof.
  change page with (location_href (created page)) at 2.
  generalize (created page). intros w Hall. revert w.
  induction Hall as [|ev evs Hev _ IH]; intros w; [reflexivity|].
  simpl. rewrite IH. apply step_location, Hev.
Qed.

End MoreRendering.

(** ** More on the converter of [options] *)

Lemma lex_cons (pending : option jsstring) (c : N) (rest : jsstring) :
  lex pending (c :: rest) =
    if is_number_char c then lex (Some (default [] pending ++ [c])) rest
    else close_number pending
      (if is_whitespace c then lex None rest
       else if bool_decide (c = 123) then cons TLBrace <$> lex None rest
       else if bool_decide (c = 125) then cons TRBrace <$> lex None rest
       else if bool_decide (c = 91) then cons TLBracket <$> lex None rest
       else if bool_decide (c = 93) then cons TRBracket <$> lex None rest
       else if bool_decide (c = 58) then cons TColon <$> lex None rest
       else if bool_decide (c = 44) then cons TComma <$> lex None rest
       else if bool_decide (c = 34) then lex_string [] rest
       else
         match c, rest with
         | 116, 114 :: 117 :: 101 :: rest' => cons TTrue <$> lex None rest'
         | 102, 97 :: 108 :: 115 :: 101 :: rest' => cons TFalse <$> lex None rest'
         | 110, 117 :: 108 :: 108 :: rest' => cons TNull <$> lex None rest'
         | _, _ => None
         end).
Proof. reflexivity. Qed.

Lemma whitespace_not_number (c : N) :
  is_whitespace c = true -> is_number_char c = false.
Proof.
  unfold is_whitespace. rewrite bool_decide_eq_true, !elem_of_cons, elem_of_nil.
  intros [->|[->|[->|[->|[]]]]]; reflexivity.
Qed.

Lemma lex_whitespace (text : jsstring) :
  Forall (fun c => is_whitespace c = true) text -> lex None text = Some [].
Proof.
  induction 1 as [|c rest Hc _ IH]; [reflexivity|].
  rewrite lex_cons, (whitespace_not_number c Hc), Hc. exact IH.
Qed.

Lemma string_of_uint_digits (u : Decimal.uint) :
  Forall (fun c => is_digit c = true) (lit (NilEmpty.string_of_uint u)).
Proof. induction u; simpl; constructor; (reflexivity || assumption). Qed.

Lemma index_key_digits (i : nat) : Forall (fun c => is_digit c = true) (index_key i).
Proof.
  unfold index_key, NilZero.string_of_uint.
  destruct (Nat.to_uint i) eqn:Hu; try (rewrite <- Hu; apply string_of_uint_digits).
  repeat constructor.
Qed.

(** A name that starts with a letter is not an array index. *)
Lemma lookup_indexed {A} (g : nat -> A -> value) (l : list A) (c : N) (k : jsstring) :
  is_digit c = false ->
  (list_to_map (imap (fun i x => (index_key i, g i x)) l) : gmap jsstring value)
    !! (c :: k) = None.
Proof.
  intros Hc. apply not_elem_of_list_to_map_1. intros Hin.
  apply list_elem_of_fmap in Hin as ([k' v] & Hk & Hin). simpl in Hk. subst k'.
  apply elem_of_lookup_imap in Hin as (i & x & Hpair & _).
  injection Hpair as Hkey _.
  pose proof (index_key_digits i) as Hd. rewrite <- Hkey in Hd.
  inversion Hd as [|? ? Hc' _]. congruence.
Qed.

Section MoreConverter.

Variables microsoftSvg githubSvg : jsstring.
Variable StringToNumber : jsstring -> jsstring.

Local Abbreviation converter := (converter microsoftSvg githubSvg StringToNumber).
Local Abbreviation defaultOptions := (defaultOptions microsoftSvg githubSvg).
Local Abbreviation defaultProviders := (defaultProviders microsoftSvg githubSvg).

(** X8.  Only the empty attribute stands for ['{}']: an attribute made of
    white space alone is a truthy string, [JSON.parse] rejects it, and the
    converter throws the [SyntaxError] instead of falling back to the
    defaults. *)
Theorem converter_whitespace (text : jsstring) :
  text <> [] ->
  Forall (fun c => is_whitespace c = true) text ->
  converter (Some text) = Throw SyntaxError.
Proof.
  intros Hne Hws. unfold converter, Auth.converter, or_empty_object, JSON_parse.
  destruct text as [|c rest]; [congruence|]. simpl ToBoolean. cbv iota.
  rewrite (lex_whitespace _ Hws). reflexivity.
Qed.

(** X9.  The converter never fails on the shape of valid JSON and never
    loses a default: its only error is the [SyntaxError] of [JSON.parse];
    what it returns is an object that has both [strings] and [providers];
    JSON that is [null], a boolean or a number gives [defaultOptions]
    itself; and a JSON array or string, whose elements are spread under
    their indices, leaves [strings] and [providers] at their defaults. *)
Theorem converter_result (attribute : option jsstring) :
  match converter attribute with
  | Ok o =>
      is_nullish o = false
      /\ is_Some (own_enumerable o !! lit "strings")
      /\ is_Some (own_enumerable o !! lit "providers")
  | Throw e => e = SyntaxError
  end
  /\ match JSON_parse StringToNumber (or_empty_object attribute) with
     | Ok VUndefined | Ok VNull | Ok (VBool _) | Ok (VNumber _) =>
         converter attribute = Ok defaultOptions
     | Ok (VArray _) | Ok (VString _) =>
         exists o,
           converter attribute = Ok o
           /\ property o "strings" = defaultStrings
           /\ property o "providers" = VArray defaultProviders
     | _ => True
     end.
Proof.
  unfold converter, Auth.converter.
  assert (forall text e, JSON_parse StringToNumber text = Throw e -> e = SyntaxError)
    as Hthrow.
  { intros text e. unfold JSON_parse. repeat case_match; congruence. }
  destruct (JSON_parse StringToNumber (or_empty_object attribute)) as [parsed|e] eqn:Hp;
    simpl.
  - split.
    + split; [reflexivity|]. rewrite !lookup_spread.
      split; destruct (own_enumerable parsed !! _); eauto.
    + destruct parsed as [| |b|text|s|elements|properties]; try reflexivity; try exact I.
      * assert (own_enumerable (VString s) !! lit "strings" = None) as Hs
          by (apply (lookup_indexed (fun _ c => VString [c]) s 115 (lit "trings"));
              reflexivity).
        assert (own_enumerable (VString s) !! lit "providers" = None) as Hv
          by (apply (lookup_indexed (fun _ c => VString [c]) s 112 (lit "roviders"));
              reflexivity).
        eexists. split; [reflexivity|]. unfold property, spread2.
        cbv beta iota delta [own_enumerable]. fold (own_enumerable (VString s)).
        rewrite !lookup_spread, Hs, Hv. split; reflexivity.
      * assert (own_enumerable (VArray elements) !! lit "strings" = None) as Hs
          by (apply (lookup_indexed (fun _ x => x) elements 115 (lit "trings"));
              reflexivity).
        assert (own_enumerable (VArray elements) !! lit "providers" = None) as Hv
          by (apply (lookup_indexed (fun _ x => x) elements 112 (lit "roviders"));
              reflexivity).
        eexists. split; [reflexivity|]. unfold property, spread2.
        cbv beta iota delta [own_enumerable]. fold (own_enumerable (VArray elements)).
        rewrite !lookup_spread, Hs, Hv. split; reflexivity.
  - split; [exact (Hthrow _ _ Hp) | exact I].
Qed.

(** X10.  An attribute that does not mention [providers] keeps the login
    buttons: when the parsed JSON has no [providers] property, an instance
    whose [options] were set to what the converter returned renders, for a
    falsy [_userDetails], the login section of the seven default
    providers, whatever else the attribute holds. *)
Theorem converter_then_renderLogin
    (attribute : option jsstring) (parsed : value) (w : World) :
  JSON_parse StringToNumber (or_empty_object attribute) = Ok parsed ->
  own_enumerable parsed !! lit "providers" = None ->
  converter attribute = Ok (options (this w)) ->
  ToBoolean (_userDetails (this w)) = false ->
  renderLogin w = (Ok (login_section defaultProviders), w)
  /\ length (listeners (login_section defaultProviders)) = 7%nat.
Proof.
  intros Hp Hnone Hc Hf. split; [|reflexivity].
  unfold converter, Auth.converter in Hc. rewrite Hp in Hc. simpl in Hc.
  injection Hc as Ho.
  rewrite renderLogin_cases, Hf. unfold renderable_providers, property.
  rewrite <- Ho. simpl is_nullish. cbv iota. simpl own_enumerable at 1.
  rewrite lookup_spread, Hnone. reflexivity.
Qed.

End MoreConverter.

(** X11.  Only an object can carry a user: for a JSON payload that is an
    array, a string, a number, a boolean or [null], [getUserInfo] resolves
    with [undefined] and does not throw, so the answer leaves the instance
    anonymous with [loaded] set; for an object it resolves with the
    [clientPrincipal] property, or [undefined] when there is none. *)
Theorem getUserInfo_by_payload (payload : value) :
  getUserInfo_resumed (Json payload) =
    Ok match payload with
       | VObject properties => default VUndefined (properties !! lit "clientPrincipal")
       | _ => VUndefined
       end
  /\ forall personSvg logoutSvg w,
       userInfo w = Pending ->
       (forall properties, payload <> VObject properties) ->
       _userDetails (this (step personSvg logoutSvg w (Answer (Json payload))))
       = VUndefined
       /\ loaded (this (step personSvg logoutSvg w (Answer (Json payload)))) = true.
Proof.
  assert (getUserInfo_resumed (Json payload) =
            Ok match payload with
               | VObject properties =>
                   default VUndefined (properties !! lit "clientPrincipal")
               | _ => VUndefined
               end) as Hr.
  { destruct payload as [| |b|text|s|elements|properties]; try reflexivity.
    - assert (own_enumerable (VString s) !! lit "clientPrincipal" = None) as Hnone
        by (apply (lookup_indexed (fun _ c => VString [c]) s 99 (lit "lientPrincipal"));
            reflexivity).
      change (Ok (default VUndefined (own_enumerable (VString s)
                                        !! lit "clientPrincipal")) = Ok VUndefined).
      rewrite Hnone. reflexivity.
    - assert (own_enumerable (VArray elements) !! lit "clientPrincipal" = None) as Hnone
        by (apply (lookup_indexed (fun _ x => x) elements 99 (lit "lientPrincipal"));
            reflexivity).
      change (Ok (default VUndefined (own_enumerable (VArray elements)
                                        !! lit "clientPrincipal")) = Ok VUndefined).
      rewrite Hnone. reflexivity. }
  split; [exact Hr|].
  intros personSvg logoutSvg w Hp Hno.
  rewrite (step_answer_json _ _ _ _ Hp). cbv zeta. simpl.
  rewrite getUserInfo_resumed_json in Hr. injection Hr as ->.
  destruct payload; try (split; reflexivity). destruct (Hno properties). reflexivity.
Qed.

(** ** Instances of the further properties *)

Lemma render_reads_three_fields_witness :
  fst (render svg svg fresh)
  = fst (render svg svg
           (run svg svg fresh
              [SetLoginRedirect (VString (lit "/home")); Call OnLogoutClicked])).
Proof. apply render_reads_three_fields; reflexivity. Defined.

(** The second default button leads to GitHub. *)
Lemma login_button_click_witness :
  let github :=
    AuthProvider "github" "Sign in with GitHub" svg "#181717" "#fff" in
  location_href (snd (click (ClickLogin github) fresh))
  = lit "/.auth/login/github?post_login_redirect_uri=%2F".
Proof.
  intros github.
  destruct (login_button_click fresh (defaultProviders svg svg) 1 github
              eq_refl eq_refl eq_refl) as (t & _ & _ & _ & Hclick & _).
  rewrite Hclick. reflexivity.
Defined.

Lemma no_navigation_without_redirect_witness :
  location_href
    (run svg svg fresh
       [Answer (Json signed_in_payload); SetType (VString (lit "status"));
        Call Render; Call GetUserDetails; SetOptions VNull; Call Render])
  = page.
Proof. apply no_navigation_without_redirect. repeat constructor. Defined.

Lemma converter_whitespace_witness :
  converter svg svg (fun lexeme => lexeme) (Some (lit " ")) = Throw SyntaxError.
Proof. apply converter_whitespace; [discriminate | repeat constructor]. Defined.

Lemma converter_then_renderLogin_witness :
  let parsed :=
    VObject {[ lit "strings" :=
                 VObject {[ lit "loginButton" := VString (lit "Sign in") ]} ]} in
  let w := step svg svg fresh (SetOptions (spread2 (defaultOptions svg svg) parsed)) in
  renderLogin w = (Ok (login_section (defaultProviders svg svg)), w).
Proof.
  intros parsed w.
  apply (converter_then_renderLogin svg svg (fun lexeme => lexeme)
           (Some (json "{'strings':{'loginButton':'Sign in'}}")) parsed w).
  - vm_compute. reflexivity.
  - vm_compute. reflexivity.
  - vm_compute. reflexivity.
  - reflexivity.
Defined.

Lemma getUserInfo_by_payload_witness :
  loaded (this (step svg svg fresh (Answer (Json (VArray [principal]))))) = true
  /\ _userDetails (this (step svg svg fresh (Answer (Json (VArray [principal])))))
     = VUndefined.
Proof.
  destruct (getUserInfo_by_payload (VArray [principal])) as [_ H].
  destruct (H svg svg fresh eq_refl) as [Hd Hl]; [intros properties; discriminate|].
  split; assumption.
Defined.
